(** * Drug Policy dashboard (src/app.py): a shallow embedding

    The dashboard is one Streamlit script: three spreadsheets are loaded,
    cleaned column by column with pandas, filtered by the side-bar widgets
    and aggregated for the charts.  This file embeds the parts of the script
    that compute data:

    - the Python string operations the script calls ([str.lower],
      [str.strip], [str.replace], the substring test [in]);
    - a column-major model of the pandas [DataFrame] with the operations the
      script uses (label access, assignment, [rename], [to_numeric],
      [dropna], boolean indexing, [groupby], inner [merge], [sort_values]);
    - the script itself: the two column detectors, [classify_country],
      [tag_drug], the three ETL blocks, the filtered view [df_price], the
      traffic ranking and the revenue simulation.

    Conventions of the model.

    - Text is [string]; characters are read as ASCII (case folding and
      white space are those of the ASCII range).
    - Numbers are exact rationals ([Qc]).  Rounding, overflow and the sign
      of zero of binary64 are not modelled; the non-finite results of a
      division by zero are.
    - A run of the script either completes or halts: [result A] is the sum
      of the ways it halts and the value it computes.
    - Rendering calls ([st.metric], [px.*], [st.plotly_chart]) consume data
      and return nothing the script reads; they are left out. *)

From stdpp Require Import base strings list gmap sorting numbers.
From Stdlib Require Import QArith Qcanon Lia.
From Stdlib Require Import Ascii.

Close Scope Q_scope.
Local Open Scope string_scope.
Local Open Scope list_scope.

(** ** Python strings *)

Module Py.

(** [c.isupper()] on the ASCII range. *)
Definition is_upper (c : ascii) : bool :=
  let n := nat_of_ascii c in (65 <=? n)%nat && (n <=? 90)%nat.

Definition lower_char (c : ascii) : ascii :=
  if is_upper c then ascii_of_nat (nat_of_ascii c + 32) else c.

(** [s.lower()] *)
Fixpoint lower (s : string) : string :=
  match s with
  | EmptyString => EmptyString
  | String c s' => String (lower_char c) (lower s')
  end.

(** [c.isspace()] on the ASCII range: TAB, LF, VT, FF, CR, the four
    separators FS GS RS US, and the space. *)
Definition is_space (c : ascii) : bool :=
  let n := nat_of_ascii c in
  ((9 <=? n)%nat && (n <=? 13)%nat) || ((28 <=? n)%nat && (n <=? 32)%nat).

Fixpoint lstrip (s : string) : string :=
  match s with
  | EmptyString => EmptyString
  | String c s' => if is_space c then lstrip s' else s
  end.

Fixpoint rstrip (s : string) : string :=
  match s with
  | EmptyString => EmptyString
  | String c s' =>
      match rstrip s' with
      | EmptyString => if is_space c then EmptyString else String c EmptyString
      | r => String c r
      end
  end.

(** [s.strip()] *)
Definition strip (s : string) : string := rstrip (lstrip s).

(** [s.startswith(p)] *)
Fixpoint startswith (p s : string) : bool :=
  match p, s with
  | EmptyString, _ => true
  | String a p', String b s' => if Ascii.eqb a b then startswith p' s' else false
  | String _ _, EmptyString => false
  end.

(** [k in s]: [k] occurs in [s] as a contiguous substring. *)
Fixpoint contains (k s : string) : bool :=
  startswith k s ||
  match s with
  | EmptyString => false
  | String _ s' => contains k s'
  end.

(** [s.replace(old, new)] for a non-empty [old]: occurrences are taken
    left to right and do not overlap.  [skip] counts the characters of an
    occurrence already replaced that are still to be passed over. *)
Fixpoint replace_go (old new : string) (skip : nat) (s : string) : string :=
  match s with
  | EmptyString => EmptyString
  | String c s' =>
      match skip with
      | S k => replace_go old new k s'
      | O =>
          if startswith old s
          then new +:+ replace_go old new (String.length old - 1) s'
          else String c (replace_go old new 0 s')
      end
  end.

(** [s.replace("", new)] puts [new] before every character and at the end. *)
Fixpoint replace_empty (new s : string) : string :=
  match s with
  | EmptyString => new
  | String c s' => new +:+ String c (replace_empty new s')
  end.

Definition replace (old new s : string) : string :=
  match old with
  | EmptyString => replace_empty new s
  | _ => replace_go old new 0 s
  end.

(** Character-wise views used to describe what [replace] does with a
    one-character pattern. *)
Fixpoint map_chars (f : ascii → ascii) (s : string) : string :=
  match s with
  | EmptyString => EmptyString
  | String c s' => String (f c) (map_chars f s')
  end.

Fixpoint remove_char (a : ascii) (s : string) : string :=
  match s with
  | EmptyString => EmptyString
  | String c s' => if Ascii.eqb a c then remove_char a s' else String c (remove_char a s')
  end.

Definition subst_char (a b : ascii) (c : ascii) : ascii :=
  if Ascii.eqb a c then b else c.

(** [k] is a contiguous part of [s]. *)
Definition occurs (k s : string) : Prop := ∃ a b, s = a +:+ k +:+ b.

Fixpoint has_char (a : ascii) (s : string) : bool :=
  match s with
  | EmptyString => false
  | String c s' => Ascii.eqb a c || has_char a s'
  end.

End Py.

(** ** pandas: cells, Series and DataFrames *)

Module Pd.

(** A cell of a spreadsheet column: missing ([NaN] / [None]), a number, or
    text. *)
Inductive cell :=
| NA
| Num (q : Qc)
| Str (s : string).

#[global] Instance cell_eq_dec : EqDecision cell.
Proof. solve_decision. Defined.

(** [pd.isna(x)] *)
Definition isna (x : cell) : bool :=
  match x with NA => true | _ => false end.

Definition notna (x : cell) : bool := negb (isna x).

Definition is_num (x : cell) : bool :=
  match x with Num _ => true | _ => false end.

(** A float64 result: finite, or one of the values a division by zero
    produces. *)
Inductive num :=
| Fin (q : Qc)
| PInf
| NInf
| NaN.

#[global] Instance num_eq_dec : EqDecision num.
Proof. solve_decision. Defined.

(** The ways a run halts: [st.stop()] after the diagnostic of the prices
    block ([st.error(message)] then [st.write(columns)]), or an uncaught
    Python exception. *)
Inductive halt :=
| StStop (message : string) (written : list string)
| KeyError (labels : list string)
| TypeError (what : string).

Definition result (A : Type) : Type := (halt + A)%type.

#[global] Instance result_ret : MRet result := λ A x, inr x.
#[global] Instance result_bind : MBind result := λ A B f m,
  match m with
  | inl e => inl e
  | inr x => f x
  end.
#[global] Instance result_fmap : FMap result := λ A B f m,
  match m with
  | inl e => inl e
  | inr x => inr (f x)
  end.

#[global] Instance halt_eq_dec : EqDecision halt.
Proof. solve_decision. Defined.

(** The run ended in [st.stop()], with its diagnostic on the page. *)
Definition diagnosed {A} (r : result A) : Prop :=
  ∃ message written, r = inl (StStop message written).

(** A DataFrame, column by column.  [index] holds the row labels (the
    positions in the sheet the row was read from); every column of [data]
    is aligned with it. *)
Record DataFrame := mkDataFrame {
  index : list nat;
  data : list (string * list cell)
}.

#[global] Instance DataFrame_eq_dec : EqDecision DataFrame.
Proof. solve_decision. Defined.

(** [df.columns] *)
Definition columns (df : DataFrame) : list string := (data df).*1.

(** [pd.read_excel]: the rows of a sheet are labelled 0, 1, 2, ...  [body]
    holds the cells as [read_excel] delivers them: an empty cell and a text
    it reads as missing ("n/a", "NA", "NULL", ...) are [NA]. *)
Definition read_sheet (header : list string) (body : list (list cell)) : DataFrame :=
  {| index := seq 0 (length body);
     data := imap (λ j h, (h, (λ r, default NA (r !! j)) <$> body)) header |}.

(** [df.columns = f(df.columns)] with [f] applied label by label. *)
Definition map_columns (f : string → string) (df : DataFrame) : DataFrame :=
  {| index := index df; data := prod_map f id <$> data df |}.

(** A Python dict literal read left to right: a key written twice keeps
    the value written last. *)
Definition dict_get {K V} `{EqDecision K} (d : list (K * V)) (k : K) : option V :=
  (λ ip, ip.2.2) <$> list_find (λ p, p.1 = k) (reverse d).

(** [df.rename(columns=d)]: labels that are keys of [d] are replaced, the
    others are kept, keys that label no column are ignored.  The keys are
    optional because the script passes the detectors' results, which may
    be [None]. *)
Definition rename (d : list (option string * string)) (df : DataFrame) : DataFrame :=
  map_columns (λ c, default c (dict_get d (Some c))) df.

(** [df[label]] where a Series is needed: the label must select exactly
    one column.  A missing label raises [KeyError]; a label carried by
    several columns selects a DataFrame, on which the Series operations of
    the script raise. *)
Definition getitem (df : DataFrame) (label : string) : result (list cell) :=
  match filter (λ c, c.1 = label) (data df) with
  | [] => inl (KeyError [label])
  | [c] => inr c.2
  | _ => inl (TypeError label)
  end.

(** [df[label] = s]: every column labelled [label] is overwritten; a new
    label is appended as the last column. *)
Definition setitem (df : DataFrame) (label : string) (s : list cell) : DataFrame :=
  {| index := index df;
     data := if decide (label ∈ columns df)
             then (λ c, if decide (c.1 = label) then (label, s) else c) <$> data df
             else data df ++ [(label, s)] |}.

(** Boolean indexing, on one column and on the frame. *)
Fixpoint select {A} (mask : list bool) (l : list A) : list A :=
  match mask, l with
  | b :: mask', x :: l' => if b then x :: select mask' l' else select mask' l'
  | _, _ => []
  end.

Definition loc (df : DataFrame) (mask : list bool) : DataFrame :=
  {| index := select mask (index df);
     data := prod_map id (select mask) <$> data df |}.

(** [s1 & s2] *)
Definition mask_and (m1 m2 : list bool) : list bool := zip_with andb m1 m2.

(** [df.dropna(subset=labels)]: [KeyError] on the labels that are not
    columns, otherwise the rows with no missing cell in any column whose
    label is listed. *)
Definition dropna_mask (labels : list string) (df : DataFrame) : list bool :=
  foldr (λ c m, if decide (c.1 ∈ labels) then mask_and (notna <$> c.2) m else m)
        (replicate (length (index df)) true) (data df).

Definition dropna (labels : list string) (df : DataFrame) : result DataFrame :=
  match filter (λ l, l ∉ columns df) labels with
  | [] => inr (loc df (dropna_mask labels df))
  | missing => inl (KeyError missing)
  end.

(** [s.isin(values)]: membership; a missing cell is in [values] only when
    [values] holds a missing value. *)
Definition isin (values : list cell) (s : list cell) : list bool :=
  (λ x, bool_decide (x ∈ values)) <$> s.

(** [s.dropna().unique()] *)
Definition unique_notna (s : list cell) : list cell :=
  remove_dups (filter (λ x, notna x = true) s).

(** The order pandas sorts group keys in: numbers by value, then text by
    code point; missing keys last. *)
Definition cell_le (x y : cell) : Prop :=
  match x, y with
  | Num a, Num b => (a <= b)%Qc
  | Num _, _ => True
  | Str _, Num _ => False
  | Str a, Str b => String.le a b
  | Str _, NA => True
  | NA, NA => True
  | NA, _ => False
  end.

#[global] Instance cell_le_dec : RelDecision cell_le.
Proof. intros [|a|a] [|b|b]; simpl; apply _. Defined.

Definition is_str (x : cell) : bool :=
  match x with Str _ => true | _ => false end.

(** The column [label] holds texts only (names, with no missing cell): it
    is of dtype object, and two such columns are compared cell by cell when
    tables are merged on them. *)
Definition text_column (df : DataFrame) (label : string) : Prop :=
  ∃ s, getitem df label = inr s ∧ Forall (λ x, is_str x = true) s.

(** Python's [sorted] on cells: numbers and text do not compare. *)
Definition sorted (l : list cell) : result (list cell) :=
  if existsb is_num l && existsb is_str l
  then inl (TypeError "'<' not supported between instances of 'str' and 'float'")
  else inr (merge_sort cell_le l).

(** The keys of [df.groupby(label)]: the distinct non-missing cells of the
    key column, sorted. *)
Definition group_keys (keys : list cell) : list cell :=
  merge_sort cell_le (unique_notna keys).

(** The cells of the value column that belong to the group of key [k]. *)
Definition group_of {A} (k : cell) (keys : list cell) (vals : list A) : list A :=
  (zip keys vals ≫= λ p, if decide (p.1 = k) then [p.2] else []).

(** The numbers of a numeric column, missing cells skipped.  It is used for
    the mean and the count of [Price_USD], a column [to_numeric] has made
    numeric before; a text cell makes [mean] raise. *)
Fixpoint numbers (label : string) (s : list cell) : result (list Qc) :=
  match s with
  | [] => inr []
  | NA :: s' => numbers label s'
  | Num q :: s' => cons q <$> numbers label s'
  | Str _ :: _ => inl (TypeError label)
  end.

Definition Qc_sum (l : list Qc) : Qc := foldr Qcplus (Q2Qc 0) l.

(** [sum] of a group, as [groupby(...)[label].sum()] computes it.  Missing
    cells are skipped and the sum of nothing is 0.  The first cell is taken
    as it is and the others are added to it in row order with Python's [+]:
    numbers add, texts concatenate (the column is of dtype object then),
    a number and a text raise [TypeError].  So the sum of a group is a
    number or a text, never missing.  Numbers are added exactly: the
    rounding of a float64 column and the wrap-around of an int64 column at
    2^63 are not modelled. *)
Fixpoint sum_from (label : string) (acc : cell) (s : list cell) : result cell :=
  match s with
  | [] => inr acc
  | x :: s' =>
      match acc, x with
      | _, NA => sum_from label acc s'
      | Num a, Num b => sum_from label (Num (a + b)) s'
      | Str a, Str b => sum_from label (Str (a +:+ b)) s'
      | _, _ => inl (TypeError label)
      end
  end.

Definition group_sum (label : string) (s : list cell) : result cell :=
  match filter (λ x, notna x = true) s with
  | [] => inr (Num (Q2Qc 0))
  | x :: s' => sum_from label x s'
  end.

(** The number in a cell of a column that holds numbers only. *)
Definition number_of (x : cell) : Qc :=
  match x with
  | Num q => q
  | _ => Q2Qc 0
  end.

(** The range of an int64. *)
Definition in_int64 (q : Qc) : Prop :=
  (Qc_of_Z (- 2 ^ 63) <= q)%Qc ∧ (q < Qc_of_Z (2 ^ 63))%Qc.

(** [count] of a group: the cells that are not missing. *)
Definition agg_count (s : list cell) : nat :=
  length (filter (λ x, notna x = true) s).

(** [mean] of a group: missing cells are skipped, the mean of nothing is
    NaN. *)
Definition agg_mean (label : string) (s : list cell) : result num :=
  qs ← numbers label s;
  mret (match qs with
        | [] => NaN
        | _ => Fin (Qc_sum qs / Qc_of_Z (Z.of_nat (length qs)))
        end).

(** [s.max()] over finite numbers; [None] stands for the NaN of an empty
    column. *)
Definition Qc_max (a b : Qc) : Qc := if decide (a <= b)%Qc then b else a.

Definition series_max (l : list Qc) : option Qc :=
  match l with
  | [] => None
  | x :: l' => Some (foldr Qc_max x l')
  end.

(** float64 arithmetic on exact values. *)
Definition fdiv (a b : Qc) : num :=
  if decide (b = Q2Qc 0)
  then (if decide (Q2Qc 0 < a)%Qc then PInf
        else if decide (a < Q2Qc 0)%Qc then NInf else NaN)
  else Fin (a / b).

Definition fdiv_opt (a : Qc) (b : option Qc) : num :=
  match b with
  | Some b => fdiv a b
  | None => NaN
  end.

Definition fadd (x y : num) : num :=
  match x, y with
  | NaN, _ | _, NaN => NaN
  | PInf, NInf | NInf, PInf => NaN
  | PInf, _ | _, PInf => PInf
  | NInf, _ | _, NInf => NInf
  | Fin a, Fin b => Fin (a + b)
  end.

Definition fsign (q : Qc) (pos neg : num) : num :=
  if decide (q = Q2Qc 0) then NaN
  else if decide (Q2Qc 0 < q)%Qc then pos else neg.

Definition fmul (x y : num) : num :=
  match x, y with
  | NaN, _ | _, NaN => NaN
  | Fin a, Fin b => Fin (a * b)
  | PInf, PInf | NInf, NInf => PInf
  | PInf, NInf | NInf, PInf => NInf
  | PInf, Fin q | Fin q, PInf => fsign q PInf NInf
  | NInf, Fin q | Fin q, NInf => fsign q NInf PInf
  end.

(** The order of [sort_values(ascending=False)]: larger first, NaN last. *)
Definition num_ge (x y : num) : Prop :=
  match x, y with
  | _, NaN => True
  | NaN, _ => False
  | PInf, _ => True
  | _, PInf => False
  | _, NInf => True
  | NInf, _ => False
  | Fin a, Fin b => (b <= a)%Qc
  end.

#[global] Instance num_ge_dec : RelDecision num_ge.
Proof. intros [a| | |] [b| | |]; simpl; apply _. Defined.

(** [x < y] on float64 values: false as soon as one side is NaN. *)
Definition num_lt (x y : num) : Prop :=
  match x, y with
  | NaN, _ | _, NaN => False
  | Fin a, Fin b => (a < b)%Qc
  | NInf, Fin _ | NInf, PInf | Fin _, PInf => True
  | _, _ => False
  end.

End Pd.

(** ** What the script takes from Python and pandas about number syntax

    [pd.to_numeric(s, errors="coerce")] decides which texts read as numbers
    and [str(x)] prints a number; neither is code of the script.  The
    development is parametric in both. *)

Class NumberSyntax := {
  (** the number a text cell reads as, if it reads as one *)
  parse_number : string → option Qc;
  (** [str(x)] for a number [x] *)
  str_of_number : Qc → string
}.

(** A small instance to run the script on examples: unsigned decimal
    integers are the texts that read as numbers here.  ([pd.to_numeric]
    reads signs, fractions and exponents as well; the texts of the examples
    are read the same way by both, and the theorems hold for every
    instance.) *)
Module Decimal.

Definition digit (c : ascii) : option Z :=
  let n := nat_of_ascii c in
  if (48 <=? n)%nat && (n <=? 57)%nat then Some (Z.of_nat (n - 48)) else None.

Fixpoint read (acc : Z) (s : string) : option Z :=
  match s with
  | EmptyString => Some acc
  | String c s' =>
      match digit c with
      | Some d => read (10 * acc + d) s'
      | None => None
      end
  end.

Definition parse (s : string) : option Qc :=
  match s with
  | EmptyString => None
  | _ => Qc_of_Z <$> read 0 s
  end.

(** Digits never spell a drug keyword; the examples need no more of the
    printed form of a number than that. *)
Definition show (q : Qc) : string := "0.0".

Definition syntax : NumberSyntax :=
  {| parse_number := parse; str_of_number := show |}.

End Decimal.

(** ** The script *)

Module App.
Import Py Pd.

Section Script.
Context `{NumberSyntax}.

(** [pd.to_numeric(s, errors="coerce")], cell by cell. *)
Definition to_numeric_cell (x : cell) : cell :=
  match x with
  | NA => NA
  | Num q => Num q
  | Str s => from_option Num NA (parse_number s)
  end.

Definition to_numeric (s : list cell) : list cell := to_numeric_cell <$> s.

(** [str(x)] of a cell that is not missing. *)
Definition str (x : cell) : string :=
  match x with
  | Str s => s
  | Num q => str_of_number q
  | NA => "nan"
  end.

(** *** Column detection (lines 10-28) *)

(** Both detectors run the same two loops: the first column, in column
    order, whose lower-cased label equals a lower-cased candidate. *)
Definition detect (candidates : list string) (df : DataFrame) : option string :=
  List.find (λ col, existsb (λ c, String.eqb (lower col) (lower c)) candidates)
            (columns df).

Definition country_candidates : list string :=
  ["Country"; "Country_Territory"; "Country/Territory";
   "Country_or_territory"; "Territory"].

Definition year_candidates : list string :=
  ["Year"; "Reference_year"; "Reference_period"].

Definition detect_country_column (df : DataFrame) : option string :=
  detect country_candidates df.

Definition detect_year_column (df : DataFrame) : option string :=
  detect year_candidates df.

(** Python's truth value of a detector result: [None] and the empty
    string are false. *)
Definition truthy (o : option string) : bool :=
  match o with
  | None | Some EmptyString => false
  | Some _ => true
  end.

(** *** Economic classification (lines 34-49) *)

(** The elements of the set literal, as written. *)
Definition OECD_NAMES : list string :=
    ["United States"; "Canada"; "Mexico";
     "Germany"; "France"; "United Kingdom"; "Italy"; "Spain";
     "Netherlands"; "Belgium"; "Luxembourg";
     "Switzerland"; "Austria"; "Sweden"; "Norway"; "Denmark";
     "Finland"; "Ireland"; "Portugal"; "Greece";
     "Japan"; "South Korea"; "Australia"; "New Zealand";
     "Israel"; "Turkey"; "Chile"; "Colombia";
     "Poland"; "Czech Republic"; "Slovakia"; "Hungary";
     "Estonia"; "Latvia"; "Lithuania"; "Slovenia"].

Definition OECD_COUNTRIES : gset string := list_to_set OECD_NAMES.

(** [country in OECD_COUNTRIES]: only a text cell can be a member. *)
Definition in_oecd (country : cell) : bool :=
  match country with
  | Str s => bool_decide (s ∈ OECD_COUNTRIES)
  | _ => false
  end.

Definition classify_country (country : cell) : string :=
  if in_oecd country then "Desenvolvido" else "Em desenvolvimento".

(** *** Drug tags (lines 55-70) *)

(** The dict literal, in the order it is written (the order [items()]
    yields). *)
Definition DRUG_TAGS : list (string * list string) :=
  [("MDMA", ["mdma"; "ecstasy"]);
   ("Cocaine", ["cocaine"]);
   ("Heroin", ["heroin"]);
   ("Cannabis", ["cannabis"; "marijuana"; "hashish"]);
   ("Amphetamine", ["amphetamine"; "ats"])].

(** [any(k in name for k in keys)] *)
Definition any_key (name : string) (keys : list string) : bool :=
  existsb (λ k, contains k name) keys.

(** The loop of [tag_drug] over the items of a dict. *)
Fixpoint first_tag (name : string) (items : list (string * list string)) : option string :=
  match items with
  | [] => None
  | (tag, keys) :: items' =>
      if any_key name keys then Some tag else first_tag name items'
  end.

Definition tag_drug (name : cell) : option string :=
  if isna name then None
  else
    let name := lower (str name) in
    first_tag name DRUG_TAGS.

(** A Python [None] or [str] stored in a column. *)
Definition cell_of (o : option string) : cell := from_option Str NA o.

(** *** ETL (lines 98-158) *)

(** Line 98. *)
Definition normalize_prices (c : string) : string :=
  replace "/" "_" (replace " " "_" (strip c)).

(** Line 125. *)
Definition normalize_seizures (c : string) : string :=
  replace " " "_" (strip c).

(** Line 146. *)
Definition normalize_crimes (c : string) : string :=
  replace ":" "" (replace " " "_" (strip c)).

Definition prices_error : string := "❌ Colunas obrigatórias não encontradas em prices.".

(** [df[label] = f(df[label])] *)
Definition update (df : DataFrame) (target source : string)
    (f : list cell → list cell) : result DataFrame :=
  s ← getitem df source;
  mret (setitem df target (f s)).

(** Lines 98-119. *)
Definition etl_prices (prices : DataFrame) : result DataFrame :=
  let prices := map_columns normalize_prices prices in
  let year_col := detect_year_column prices in
  let country_col := detect_country_column prices in
  if negb (truthy year_col) || negb (truthy country_col)
  then inl (StStop prices_error (columns prices))
  else
    let prices :=
      rename [(year_col, "Year"); (country_col, "Country");
              (Some "Typical_USD", "Price_USD")] prices in
    prices ← update prices "Year" "Year" to_numeric;
    prices ← update prices "Price_USD" "Price_USD" to_numeric;
    prices ← dropna ["Year"; "Price_USD"; "Drug"; "Region"] prices;
    prices ← update prices "Drug_Tag" "Drug" (fmap (cell_of ∘ tag_drug));
    update prices "Economic_Status" "Country" (fmap (Str ∘ classify_country)).

(** Lines 125-140. *)
Definition etl_seizures (seizures : DataFrame) : result DataFrame :=
  let seizures := map_columns normalize_seizures seizures in
  let year_col := detect_year_column seizures in
  let country_col := detect_country_column seizures in
  let seizures := rename [(year_col, "Year"); (country_col, "Country")] seizures in
  seizures ← update seizures "Year" "Year" to_numeric;
  seizures ← update seizures "Kilograms" "Kilograms" to_numeric;
  seizures ← dropna ["Year"; "Kilograms"; "DrugName"; "Region"; "Country"] seizures;
  seizures ← update seizures "Drug_Tag" "DrugName" (fmap (cell_of ∘ tag_drug));
  update seizures "Economic_Status" "Country" (fmap (Str ∘ classify_country)).

(** Lines 146-158. *)
Definition etl_crimes (crimes : DataFrame) : result DataFrame :=
  let crimes := map_columns normalize_crimes crimes in
  let year_col := detect_year_column crimes in
  let country_col := detect_country_column crimes in
  let crimes := rename [(year_col, "Year"); (country_col, "Country")] crimes in
  crimes ← update crimes "Year" "Year" to_numeric;
  crimes ← dropna ["Year"; "Country"] crimes;
  update crimes "Economic_Status" "Country" (fmap (Str ∘ classify_country)).

(** *** Side bar (lines 167-184) *)

(** The state of the widgets: what the three multiselects and the three
    sliders return in one run of the script. *)
Record widgets := mkWidgets {
  drug_tags : list cell;
  econ_status : list cell;
  countries : list cell;
  tax_rate : Z;
  price_reduction : Z;
  top_n : nat
}.

(** [sorted(prices[label].dropna().unique())] *)
Definition options (df : DataFrame) (label : string) : result (list cell) :=
  s ← getitem df label;
  sorted (unique_notna s).

Definition econ_options : list cell :=
  [Str "Desenvolvido"; Str "Em desenvolvimento"].

(** What Streamlit guarantees about the widgets: a multiselect returns
    some of its options, a slider a value between its bounds. *)
Definition selection_of (u : widgets) (tag_options country_options : list cell) : Prop :=
  drug_tags u ⊆ tag_options ∧
  econ_status u ⊆ econ_options ∧
  countries u ⊆ country_options ∧
  (5 ≤ tax_rate u ≤ 50)%Z ∧
  (0 ≤ price_reduction u ≤ 60)%Z ∧
  (5 ≤ top_n u ≤ 30)%nat.

(** *** Filtered views (lines 190-196 and 249-253) *)

(** [df[df["Drug_Tag"].isin(drug_tags) & df["Economic_Status"].isin(econ_status)]] *)
Definition filter_tag_status (df : DataFrame) (u : widgets) : result DataFrame :=
  tags ← getitem df "Drug_Tag";
  status ← getitem df "Economic_Status";
  mret (loc df (mask_and (isin (drug_tags u) tags) (isin (econ_status u) status))).

Definition df_price (prices : DataFrame) (u : widgets) : result DataFrame :=
  df_price ← filter_tag_status prices u;
  match countries u with
  | [] => mret df_price
  | _ =>
      c ← getitem df_price "Country";
      mret (loc df_price (isin (countries u) c))
  end.

(** *** Traffic ranking (lines 294-304) *)

(** [df.groupby(key, as_index=False)[value].sum()] *)
Fixpoint sum_groups (value : string) (keys vals : list cell) (ks : list cell)
    : result (list (cell * cell)) :=
  match ks with
  | [] => mret []
  | k :: ks' =>
      total ← group_sum value (group_of k keys vals);
      rest ← sum_groups value keys vals ks';
      mret ((k, total) :: rest)
  end.

Definition groupby_sum (df : DataFrame) (key value : string) : result (list (cell * cell)) :=
  keys ← getitem df key;
  vals ← getitem df value;
  sum_groups value keys vals (group_keys keys).

(** [left.merge(right, on=key, how="inner")]: the pairs of rows with equal
    keys, in the order of the left rows. *)
Definition matches {A B} (k : cell) (a : A) (right : list (cell * B)) : list (cell * A * B) :=
  '(k', b) ← right;
  if decide (k = k') then [(k, a, b)] else [].

Definition merge_inner {A B} (left : list (cell * A)) (right : list (cell * B))
    : list (cell * A * B) :=
  '(k, a) ← left;
  matches k a right.

Record traffic_row := mkTraffic {
  Country : cell;
  Kilograms : Qc;
  Calculated_total : Qc;
  Traffic_Score : num
}.

(** Lines 299-302: each column is divided by its own maximum over the
    merged rows. *)
Definition score (rows : list (cell * Qc * Qc)) : list traffic_row :=
  let kmax := series_max (rows.*1.*2) in
  let cmax := series_max (rows.*2) in
  (λ r, {| Country := r.1.1; Kilograms := r.1.2; Calculated_total := r.2;
           Traffic_Score := fadd (fdiv_opt r.1.2 kmax) (fdiv_opt r.2 cmax) |}) <$> rows.

(** Lines 294-302.  The sums of the countries that are not in both tables
    leave with the merge.  When a sum that stays is a text, [max] or the
    division of its column raises [TypeError]; otherwise both columns hold
    numbers and the score is computed. *)
Definition traffic_rank (seizures crimes : DataFrame) : result (list traffic_row) :=
  seiz_country ← groupby_sum seizures "Country" "Kilograms";
  crime_country ← groupby_sum crimes "Country" "Calculated_total";
  let traffic_rank := merge_inner seiz_country crime_country in
  if negb (forallb is_num (traffic_rank.*1.*2)) then inl (TypeError "Kilograms")
  else if negb (forallb is_num (traffic_rank.*2)) then inl (TypeError "Calculated_total")
  else mret (score ((λ r, (r.1.1, number_of r.1.2, number_of r.2)) <$> traffic_rank)).

(** [df.sort_values(col, ascending=False).head(n)]: larger keys first, NaN
    last, rows with equal keys in the order they had.  (That is what the
    default sort does on a table of up to 16 rows; on a longer one it may
    order rows with equal keys differently.) *)
Fixpoint insert_desc {A} (key : A → num) (x : A) (rows : list A) : list A :=
  match rows with
  | [] => [x]
  | y :: rows' =>
      if decide (num_ge (key x) (key y)) then x :: y :: rows'
      else y :: insert_desc key x rows'
  end.

Definition sort_desc {A} (key : A → num) (rows : list A) : list A :=
  foldr (insert_desc key) [] rows.

Definition top {A} (key : A → num) (n : nat) (rows : list A) : list A :=
  take n (sort_desc key rows).

(** Line 304. *)
Definition top_traffic (rank : list traffic_row) : list traffic_row :=
  top Traffic_Score 15 rank.

(** *** Revenue simulation (lines 342-370) *)

Record sim_row := mkSim {
  sim_Country : cell;
  Avg_Price : num;
  Transactions : nat;
  Estimated_Volume : Z;
  Legal_Price : num;
  Tax_Revenue : num
}.

(** Lines 355-363 on one row of the aggregate. *)
Definition simulate (u : widgets) (country : cell) (avg : num) (n : nat) : sim_row :=
  let volume := (Z.of_nat n * 800)%Z in
  let legal := fmul avg (Fin (1 - Qc_of_Z (price_reduction u) / Qc_of_Z 100)) in
  {| sim_Country := country;
     Avg_Price := avg;
     Transactions := n;
     Estimated_Volume := volume;
     Legal_Price := legal;
     Tax_Revenue :=
       fmul (fmul legal (Fin (Qc_of_Z (tax_rate u) / Qc_of_Z 100)))
            (Fin (Qc_of_Z volume)) |}.

(** Lines 345-352: [sim_base.groupby("Country", as_index=False).agg(
    Avg_Price=("Price_USD", "mean"), Transactions=("Price_USD", "count"))]. *)
Fixpoint agg_groups (keys vals : list cell) (ks : list cell)
    : result (list (cell * num * nat)) :=
  match ks with
  | [] => mret []
  | k :: ks' =>
      let g := group_of k keys vals in
      avg ← agg_mean "Price_USD" g;
      rest ← agg_groups keys vals ks';
      mret ((k, avg, agg_count g) :: rest)
  end.

Definition country_agg (sim_base : DataFrame) : result (list (cell * num * nat)) :=
  keys ← getitem sim_base "Country";
  vals ← getitem sim_base "Price_USD";
  agg_groups keys vals (group_keys keys).

(** Lines 345-363: the aggregate with the three simulated columns. *)
Definition country_sim (sim_base : DataFrame) (u : widgets) : result (list sim_row) :=
  agg ← country_agg sim_base;
  mret ((λ r, simulate u r.1.1 r.1.2 r.2) <$> agg).

(** Lines 366-370. *)
Definition ranked_sim (u : widgets) (rows : list sim_row) : list sim_row :=
  top Tax_Revenue (top_n u) rows.

(** *** The run *)

Record sheets := mkSheets {
  prices_xlsx : DataFrame;
  seizures_xlsx : DataFrame;
  crimes_xlsx : DataFrame
}.

(** The tables the script hands to the KPIs and charts. *)
Record dashboard := mkDashboard {
  out_prices : DataFrame;
  out_df_price : DataFrame;
  out_seiz_filtered : DataFrame;
  out_traffic_rank : list traffic_row;
  out_top_traffic : list traffic_row;
  out_map : list traffic_row;
  out_country_sim : list sim_row;
  out_ranked_sim : list sim_row
}.

(** One run of the script, top to bottom.  The group-by of the two line
    charts and of the scatter plot read [df_price] and the filtered
    seizures and feed nothing else; they stop at the filtered frames
    here. *)
Definition run (s : sheets) (u : widgets) : result dashboard :=
  prices ← etl_prices (prices_xlsx s);
  seizures ← etl_seizures (seizures_xlsx s);
  crimes ← etl_crimes (crimes_xlsx s);
  _ ← options prices "Drug_Tag";
  _ ← options prices "Country";
  dfp ← df_price prices u;
  seiz ← filter_tag_status seizures u;
  rank ← traffic_rank seizures crimes;
  sim ← country_sim dfp u;
  mret {| out_prices := prices;
          out_df_price := dfp;
          out_seiz_filtered := seiz;
          out_traffic_rank := rank;
          out_top_traffic := top_traffic rank;
          out_map := rank;
          out_country_sim := sim;
          out_ranked_sim := ranked_sim u sim |}.

(** The widgets of a run are drawn from the options the cleaned prices
    offer (lines 167-184). *)
Definition valid_widgets (prices : DataFrame) (u : widgets) : Prop :=
  ∃ tag_options country_options,
    options prices "Drug_Tag" = inr tag_options ∧
    options prices "Country" = inr country_options ∧
    selection_of u tag_options country_options.

(** The same widgets with the tax slider moved to [t]. *)
Definition set_tax_rate (u : widgets) (t : Z) : widgets :=
  {| drug_tags := drug_tags u;
     econ_status := econ_status u;
     countries := countries u;
     tax_rate := t;
     price_reduction := price_reduction u;
     top_n := top_n u |}.

(** The header normalization as the specification words it, for all
    three sheets alike: surrounding white space stripped, then every
    space, slash and colon replaced by an underscore. *)
Definition spec_normalize (c : string) : string :=
  map_chars (λ a, if Ascii.eqb a " " || Ascii.eqb a "/" || Ascii.eqb a ":"
                  then "_"%char else a)
            (strip c).

End Script.
End App.

(** ** Sample sheets

    Small sheets and widget states on which the script is run in the
    examples below. *)

Module Samples.
Import Pd App.

Definition n (z : Z) : cell := Num (Qc_of_Z z).

(** Well-formed sheets: year and country under their UNODC headers,
    one price that does not read as a number, one drug name without a
    keyword. *)
Definition prices_sheet : DataFrame :=
  read_sheet ["Reference period"; "Country/Territory"; "Drug"; "Region"; "Typical_USD"]
    [[n 2020; Str "Germany"; Str "Cocaine (street)"; Str "Europe"; n 80];
     [Str "2021"; Str "Brazil"; Str "Opium"; Str "Americas"; Str "unknown"];
     [Str "2021"; Str "Brazil"; Str "Opium"; Str "Americas"; Str "12"];
     [Str "2021"; Str "Brazil"; Str "Heroin"; Str "Americas"; Str "20"];
     [Str "2021"; Str "Brazil"; Str "Heroin"; Str "Americas"; Str "40"]].

Definition seizures_sheet : DataFrame :=
  read_sheet ["Year"; "Country"; "DrugName"; "Region"; "Kilograms"]
    [[n 2020; Str "Germany"; Str "Cocaine"; Str "Europe"; n 5];
     [n 2020; Str "Brazil"; Str "Cocaine"; Str "Americas"; n 10];
     [n 2020; Str "Peru"; Str "Cocaine"; Str "Americas"; n 10];
     [n 2021; Str "Germany"; Str "Heroin"; Str "Europe"; n 3]].

Definition crimes_sheet : DataFrame :=
  read_sheet ["Year"; "Country"; "Calculated_total"]
    [[n 2020; Str "Germany"; n 100];
     [n 2020; Str "France"; n 70];
     [n 2020; Str "Brazil"; n 50];
     [n 2021; Str "Germany"; n 300]].

Definition workbook : sheets :=
  {| prices_xlsx := prices_sheet;
     seizures_xlsx := seizures_sheet;
     crimes_xlsx := crimes_sheet |}.

(** The default state of the side bar and of the sliders. *)
Definition defaults : widgets :=
  {| drug_tags := [Str "Cocaine"; Str "Heroin"];
     econ_status := econ_options;
     countries := [];
     tax_rate := 20;
     price_reduction := 30;
     top_n := 15 |}.

(** Another selection: one drug, one country. *)
Definition heroin_in_brazil : widgets :=
  {| drug_tags := [Str "Heroin"];
     econ_status := [Str "Em desenvolvimento"];
     countries := [Str "Brazil"];
     tax_rate := 35;
     price_reduction := 10;
     top_n := 5 |}.

(** A prices sheet with a negative typical price. *)
Definition negative_price_sheet : DataFrame :=
  read_sheet ["Year"; "Country"; "Drug"; "Region"; "Typical_USD"]
    [[n 2020; Str "Peru"; Str "Cocaine"; Str "Americas"; n (-10)]].

Definition negative_workbook : sheets :=
  {| prices_xlsx := negative_price_sheet;
     seizures_xlsx := seizures_sheet;
     crimes_xlsx := crimes_sheet |}.

Definition cocaine : widgets :=
  {| drug_tags := [Str "Cocaine"];
     econ_status := econ_options;
     countries := [];
     tax_rate := 20;
     price_reduction := 30;
     top_n := 15 |}.

(** Sheets without a year column, and without a country column. *)
Definition seizures_without_year : DataFrame :=
  read_sheet ["Ano"; "Country"; "DrugName"; "Region"; "Kilograms"]
    [[n 2020; Str "Germany"; Str "Cocaine"; Str "Europe"; n 5]].

Definition seizures_without_country : DataFrame :=
  read_sheet ["Year"; "Pais"; "DrugName"; "Region"; "Kilograms"]
    [[n 2020; Str "Germany"; Str "Cocaine"; Str "Europe"; n 5]].

Definition crimes_without_year : DataFrame :=
  read_sheet ["Ano"; "Country"; "Calculated_total"]
    [[n 2020; Str "Germany"; n 100]].

Definition crimes_without_country : DataFrame :=
  read_sheet ["Year"; "Pais"; "Calculated_total"]
    [[n 2020; Str "Germany"; n 100]].

(** A crimes sheet whose totals are a number, a text that is no number,
    and an empty cell. *)
Definition crimes_with_bad_totals : DataFrame :=
  read_sheet ["Year"; "Country"; "Calculated_total"]
    [[n 2020; Str "Germany"; n 100];
     [n 2020; Str "Brazil"; Str "unknown"];
     [n 2020; Str "France"; NA]].

(** Crimes sheets with texts among the totals: for a country without
    seizures, and for a country with seizures. *)
Definition crimes_with_text_elsewhere : DataFrame :=
  read_sheet ["Year"; "Country"; "Calculated_total"]
    [[n 2020; Str "Germany"; n 100];
     [n 2020; Str "Atlantis"; Str "many"];
     [n 2021; Str "Atlantis"; Str "few"];
     [n 2020; Str "Brazil"; n 50]].

Definition crimes_with_text_joined : DataFrame :=
  read_sheet ["Year"; "Country"; "Calculated_total"]
    [[n 2020; Str "Germany"; Str "many"];
     [n 2020; Str "Brazil"; n 50]].

Definition crimes_with_mixed_group : DataFrame :=
  read_sheet ["Year"; "Country"; "Calculated_total"]
    [[n 2020; Str "Atlantis"; n 100];
     [n 2021; Str "Atlantis"; Str "many"];
     [n 2020; Str "Brazil"; n 50]].

End Samples.

(** * Verification *)

Section Verification.
Context `{NumberSyntax}.
Import Py Pd App.

(** ** Python strings *)

Lemma append_cons c a b : String c a +:+ b = String c (a +:+ b).
Proof. reflexivity. Qed.

Lemma startswith_nil s : startswith "" s = true.
Proof. by destruct s. Qed.

Lemma startswith_spec p s : startswith p s = true ↔ ∃ r, s = p +:+ r.
Proof.
  revert s. induction p as [|a p IH]; intros s.
  - rewrite startswith_nil. split; [|done]. intros _. by exists s.
  - destruct s as [|b s]; simpl.
    + split; [done|]. by intros [r ?].
    + destruct (Ascii.eqb_spec a b) as [->|Hne].
      * rewrite IH. split; intros [r Hr]; exists r;
          rewrite append_cons in *; congruence.
      * split; [done|]. intros [r Hr]. rewrite append_cons in Hr. congruence.
Qed.

Lemma contains_spec k s : contains k s = true ↔ occurs k s.
Proof.
  split.
  - induction s as [|c s IH]; simpl; rewrite orb_true_iff.
    + intros [Hs|?]; [|done].
      apply startswith_spec in Hs as [r Hr]. by exists "", r.
    + intros [Hs|Hc].
      * apply startswith_spec in Hs as [r Hr]. by exists "", r.
      * destruct (IH Hc) as (a & b & ->). by exists (String c a), b.
  - intros (a & b & ->). induction a as [|c a IH]; simpl.
    + assert (startswith k (k +:+ b) = true) as Hs
        by (apply startswith_spec; by exists b).
      destruct (k +:+ b); simpl in *; rewrite Hs; done.
    + rewrite IH. apply orb_true_r.
Qed.

(** [replace] with one-character patterns works character by character. *)
Lemma replace_char a b s :
  replace (String a "") (String b "") s = map_chars (subst_char a b) s.
Proof.
  unfold replace. induction s as [|c s IH]; [done|].
  simpl. unfold subst_char at 1.
  destruct (Ascii.eqb a c); simpl; rewrite ?startswith_nil; simpl; by rewrite IH.
Qed.

Lemma replace_char_by_nothing a s :
  replace (String a "") "" s = remove_char a s.
Proof.
  unfold replace. induction s as [|c s IH]; [done|].
  simpl. destruct (Ascii.eqb a c); simpl; rewrite ?startswith_nil; simpl; by rewrite IH.
Qed.

Lemma map_chars_ext f g s :
  (∀ c, has_char c s = true → f c = g c) → map_chars f s = map_chars g s.
Proof.
  induction s as [|c s IH]; [done|]. intros Hf. simpl. f_equal.
  - apply Hf. simpl. by rewrite Ascii.eqb_refl.
  - apply IH. intros c' Hc'. apply Hf. simpl. rewrite Hc'. apply orb_true_r.
Qed.

Lemma map_chars_compose f g s :
  map_chars f (map_chars g s) = map_chars (f ∘ g) s.
Proof. induction s as [|c s IH]; [done|]. simpl. by rewrite IH. Qed.

Lemma remove_char_absent a s : has_char a s = false → remove_char a s = s.
Proof.
  induction s as [|c s IH]; [done|]. simpl.
  destruct (Ascii.eqb a c); [done|]. simpl. intros ?. by rewrite IH.
Qed.

(** ** Drug tags *)

Lemma any_key_spec name keys :
  any_key name keys = true ↔ ∃ k, k ∈ keys ∧ occurs k name.
Proof.
  unfold any_key. rewrite existsb_exists. split.
  - intros (k & Hin & Hk). exists k. split; [by apply list_elem_of_In|].
    by apply contains_spec.
  - intros (k & Hin & Hk). exists k. split; [by apply list_elem_of_In|].
    by apply contains_spec.
Qed.

(** The loop returns the tag of the first item with a matching key. *)
Lemma first_tag_Some name items tag :
  first_tag name items = Some tag ↔
  ∃ before keys after,
    items = before ++ (tag, keys) :: after ∧
    any_key name keys = true ∧
    Forall (λ item, any_key name item.2 = false) before.
Proof.
  induction items as [|[t ks] items IH]; simpl.
  - split; [done|]. intros (before & ? & ? & Heq & _). by destruct before.
  - destruct (any_key name ks) eqn:Hks.
    + split.
      * intros [= ->]. exists [], ks, items. by repeat split.
      * intros (before & keys & after & Heq & Hk & Hb).
        destruct before as [|b before]; simplify_eq/=; [done|].
        inversion_clear Hb as [|?? Hb1 Hb2]. simpl in Hb1. congruence.
    + rewrite IH. split.
      * intros (before & keys & after & -> & Hk & Hb).
        exists ((t, ks) :: before), keys, after. repeat split; [done|].
        by constructor.
      * intros (before & keys & after & Heq & Hk & Hb).
        destruct before as [|b before]; simplify_eq/=; [congruence|].
        inversion Hb; subst. by exists before, keys, after.
Qed.

Lemma first_tag_None name items :
  first_tag name items = None ↔
  Forall (λ item, any_key name item.2 = false) items.
Proof.
  induction items as [|[t ks] items IH]; simpl.
  - split; [by constructor|done].
  - destruct (any_key name ks) eqn:Hks.
    + split; [done|]. intros Hf. inversion_clear Hf as [|?? Hf1 Hf2].
      simpl in Hf1. congruence.
    + rewrite IH. split; [by constructor|].
      intros Hf. by inversion Hf.
Qed.

Lemma any_key_false name keys :
  any_key name keys = false ↔ ∀ k, k ∈ keys → ¬ occurs k name.
Proof.
  rewrite <- not_true_iff_false, any_key_spec. split.
  - intros Hn k Hk Ho. apply Hn. eauto.
  - intros Hn (k & Hk & Ho). by apply (Hn k).
Qed.

(** C3.  [tag_drug] is a total function of its argument.  A missing name
    is tagged [None].  For any other name the result is the tag of the
    first entry of [DRUG_TAGS], in the order MDMA, Cocaine, Heroin,
    Cannabis, Amphetamine, one of whose keywords occurs in the
    lower-cased text of the name; it is [None] exactly when no keyword of
    any entry occurs.  Equal arguments get equal tags. *)
Theorem tag_drug_first_match :
  DRUG_TAGS.*1 = ["MDMA"; "Cocaine"; "Heroin"; "Cannabis"; "Amphetamine"] ∧
  tag_drug NA = None ∧
  (∀ name tag, name ≠ NA →
     tag_drug name = Some tag ↔
     ∃ before keys after k,
       DRUG_TAGS = before ++ (tag, keys) :: after ∧
       k ∈ keys ∧ occurs k (lower (str name)) ∧
       ∀ tag' keys' k', (tag', keys') ∈ before → k' ∈ keys' →
                        ¬ occurs k' (lower (str name))) ∧
  (∀ name, name ≠ NA →
     tag_drug name = None ↔
     ∀ tag keys k, (tag, keys) ∈ DRUG_TAGS → k ∈ keys →
                   ¬ occurs k (lower (str name))) ∧
  (∀ name name', name = name' → tag_drug name = tag_drug name').
Proof.
  split; [done|]. split; [done|]. split; [|split].
  - intros name tag Hna. unfold tag_drug.
    replace (isna name) with false by (by destruct name).
    rewrite first_tag_Some. split.
    + intros (before & keys & after & Heq & Hk & Hb).
      apply any_key_spec in Hk as (k & Hin & Hocc).
      exists before, keys, after, k. repeat split; [done..|].
      intros tag' keys' k' Hin' Hk'.
      rewrite list.Forall_forall in Hb. specialize (Hb _ Hin'). simpl in Hb.
      by eapply any_key_false.
    + intros (before & keys & after & k & Heq & Hin & Hocc & Hb).
      exists before, keys, after. repeat split; [done| |].
      * apply any_key_spec. eauto.
      * apply list.Forall_forall. intros [tag' keys'] Hin'. simpl.
        apply any_key_false. eauto.
  - intros name Hna. unfold tag_drug.
    replace (isna name) with false by (by destruct name).
    rewrite first_tag_None, list.Forall_forall. split.
    + intros Hall tag keys k Hin Hk.
      specialize (Hall _ Hin). simpl in Hall. by eapply any_key_false.
    + intros Hall [tag keys] Hin. simpl. apply any_key_false. eauto.
  - by intros name name' ->.
Qed.

(** ** Country classification *)

Lemma in_oecd_spec s : in_oecd (Str s) = true ↔ s ∈ OECD_NAMES.
Proof.
  simpl. rewrite bool_decide_eq_true. unfold OECD_COUNTRIES.
  by rewrite elem_of_list_to_set.
Qed.

(** C4.  [classify_country] depends on nothing but whether its argument
    is, character for character, one of the 36 distinct names of the set
    literal: those map to "Desenvolvido", every other text (and every cell
    that is not text) to "Em desenvolvimento".  Aliases and other
    spellings of a listed country are other strings. *)
Theorem classify_country_exact :
  length OECD_NAMES = 36 ∧ NoDup OECD_NAMES ∧ size OECD_COUNTRIES = 36 ∧
  (∀ s, s ∈ OECD_NAMES → classify_country (Str s) = "Desenvolvido") ∧
  (∀ s, s ∉ OECD_NAMES → classify_country (Str s) = "Em desenvolvimento") ∧
  (∀ c, is_str c = false → classify_country c = "Em desenvolvimento") ∧
  classify_country (Str "United States") = "Desenvolvido" ∧
  classify_country (Str "USA") = "Em desenvolvimento" ∧
  classify_country (Str "united states") = "Em desenvolvimento" ∧
  classify_country (Str "United States ") = "Em desenvolvimento".
Proof.
  split; [done|]. split; [|split; [|split; [|split; [|split]]]].
  - apply (bool_decide_unpack _). by vm_compute.
  - by vm_compute.
  - intros s Hs. unfold classify_country.
    by rewrite (proj2 (in_oecd_spec s) Hs).
  - intros s Hs. unfold classify_country.
    destruct (in_oecd (Str s)) eqn:E; [|done].
    by apply in_oecd_spec in E.
  - by intros [| |].
  - by vm_compute.
Qed.

(** ** Header normalization *)

Lemma normalize_prices_chars c :
  normalize_prices c =
  map_chars (subst_char "/" "_") (map_chars (subst_char " " "_") (strip c)).
Proof. unfold normalize_prices. by rewrite !replace_char. Qed.

Lemma normalize_seizures_chars c :
  normalize_seizures c = map_chars (subst_char " " "_") (strip c).
Proof. unfold normalize_seizures. by rewrite replace_char. Qed.

Lemma normalize_crimes_chars c :
  normalize_crimes c =
  remove_char ":" (map_chars (subst_char " " "_") (strip c)).
Proof.
  unfold normalize_crimes. by rewrite replace_char, replace_char_by_nothing.
Qed.

Lemma has_char_map_chars_other f a s :
  (∀ c, f c = a → c = a) →
  has_char a s = false → has_char a (map_chars f s) = false.
Proof.
  intros Hf. induction s as [|c s IH]; [done|]. simpl.
  rewrite !orb_false_iff. intros [Hc Hs]. split; [|by apply IH].
  apply Ascii.eqb_neq. apply Ascii.eqb_neq in Hc. intros E.
  symmetry in E. apply Hf in E. congruence.
Qed.

Lemma columns_map_columns f df : columns (map_columns f df) = f <$> columns df.
Proof.
  unfold columns, map_columns. simpl. rewrite <- !list_fmap_compose.
  by apply list_fmap_ext; intros ? [??].
Qed.

(** C5 (as the code has it).  Each sheet has its own normalization, and
    the detectors run on the normalized labels.  All three strip the
    surrounding white space and turn every space into an underscore.
    Prices also turns every slash into an underscore and keeps colons;
    seizures keeps slashes and colons; crimes deletes every colon and
    keeps slashes.  So prices agrees with the specified normalization on
    headers without a colon after stripping, seizures and crimes on
    headers with neither a slash nor a colon. *)
Theorem header_normalization_per_sheet (c : string) :
  normalize_prices c =
    map_chars (subst_char "/" "_") (map_chars (subst_char " " "_") (strip c)) ∧
  normalize_seizures c = map_chars (subst_char " " "_") (strip c) ∧
  normalize_crimes c =
    remove_char ":" (map_chars (subst_char " " "_") (strip c)) ∧
  (has_char ":" (strip c) = false → normalize_prices c = spec_normalize c) ∧
  (has_char "/" (strip c) = false → has_char ":" (strip c) = false →
     normalize_seizures c = spec_normalize c ∧
     normalize_crimes c = spec_normalize c) ∧
  (∀ df f, detect_year_column (map_columns f df) =
             List.find (λ col, existsb (λ k, String.eqb (lower col) (lower k))
                                       year_candidates) (f <$> columns df)) ∧
  (∀ df f, detect_country_column (map_columns f df) =
             List.find (λ col, existsb (λ k, String.eqb (lower col) (lower k))
                                       country_candidates) (f <$> columns df)).
Proof.
  split; [apply normalize_prices_chars|].
  split; [apply normalize_seizures_chars|].
  split; [apply normalize_crimes_chars|].
  split; [|split; [|split]].
  - intros Hcolon. rewrite normalize_prices_chars, map_chars_compose.
    unfold spec_normalize. apply map_chars_ext. intros a Ha.
    unfold compose, subst_char.
    rewrite !(Ascii.eqb_sym a).
    destruct (Ascii.eqb_spec " " a) as [<-|?]; [done|].
    destruct (Ascii.eqb_spec "/" a) as [<-|?]; [done|].
    destruct (Ascii.eqb_spec ":" a) as [<-|?]; [congruence|done].
  - intros Hslash Hcolon.
    assert (map_chars (subst_char " " "_") (strip c) = spec_normalize c) as Hs.
    { unfold spec_normalize. apply map_chars_ext. intros a Ha.
      unfold subst_char. rewrite !(Ascii.eqb_sym a).
      destruct (Ascii.eqb_spec " " a) as [<-|?]; [done|].
      destruct (Ascii.eqb_spec "/" a) as [<-|?]; [congruence|].
      destruct (Ascii.eqb_spec ":" a) as [<-|?]; [congruence|done]. }
    split.
    + by rewrite normalize_seizures_chars.
    + rewrite normalize_crimes_chars, <- Hs. apply remove_char_absent.
      apply has_char_map_chars_other; [|done].
      intros a. unfold subst_char.
      destruct (Ascii.eqb_spec " " a); [done|]. congruence.
  - intros df f. unfold detect_year_column, detect.
    by rewrite columns_map_columns.
  - intros df f. unfold detect_country_column, detect.
    by rewrite columns_map_columns.
Qed.

(** ** The result monad *)

Lemma bind_inr {A B} (m : result A) (k : A → result B) b :
  m ≫= k = inr b ↔ ∃ a, m = inr a ∧ k a = inr b.
Proof.
  destruct m as [e|a]; simpl.
  - split; [done|]. by intros (? & ? & ?).
  - split; [eauto|]. by intros (? & [= ->] & ?).
Qed.

Lemma ret_inr {A} (a b : A) : (mret a : result A) = inr b → a = b.
Proof. by intros [= ->]. Qed.

(** ** Boolean indexing *)

Lemma select_fmap {A B} (f : A → B) mask (l : list A) :
  select mask (f <$> l) = f <$> select mask l.
Proof.
  revert l. induction mask as [|b mask IH]; intros [|x l]; simpl; try done.
  destruct b; simpl; by rewrite IH.
Qed.

Lemma select_Forall {A} (P : A → Prop) mask (l : list A) :
  Forall P l → Forall P (select mask l).
Proof.
  intros Hl. revert mask. induction Hl as [|x l Hx Hl IH]; intros [|b mask]; simpl;
    try by constructor.
  destruct b; [constructor|]; auto.
Qed.

(** The rows a mask built from a test of one column keeps pass the test. *)
Lemma select_test_l {A} (f : A → bool) (l : list A) (m : list bool) :
  Forall (λ x, f x = true) (select (mask_and (f <$> l) m) l).
Proof.
  revert m. induction l as [|x l IH]; intros [|b m]; simpl; try by constructor.
  destruct (f x) eqn:E, b; simpl; try apply IH. constructor; [done|apply IH].
Qed.

(** ** Label access *)

Lemma filter_label_fmap (g : list cell → list cell) label (cols : list (string * list cell)) :
  filter (λ c, c.1 = label) (prod_map id g <$> cols) =
  prod_map id g <$> filter (λ c, c.1 = label) cols.
Proof.
  induction cols as [|[l c] cols IH]; [done|].
  rewrite fmap_cons, !filter_cons. simpl.
  destruct (decide (l = label)); by rewrite ?fmap_cons, IH.
Qed.

Lemma getitem_loc df mask label :
  getitem (loc df mask) label = select mask <$> getitem df label.
Proof.
  unfold getitem, loc. simpl. rewrite filter_label_fmap.
  destruct (filter _ (data df)) as [|[l c] [|? ?]]; done.
Qed.

Lemma elem_of_columns df label :
  label ∈ columns df ↔ filter (λ c, c.1 = label) (data df) ≠ [].
Proof.
  unfold columns. induction (data df) as [|[l c] cols IH]; simpl.
  - rewrite elem_of_nil. split; [done|]. by intros [].
  - rewrite filter_cons, elem_of_cons. simpl.
    destruct (decide (l = label)) as [->|Hne].
    + split; [done|auto].
    + rewrite IH. split; [intros [?|?]; [congruence|done]|auto].
Qed.

Lemma getitem_inr_columns df label s :
  getitem df label = inr s → label ∈ columns df.
Proof.
  unfold getitem. rewrite elem_of_columns.
  by destruct (filter _ (data df)) as [|? [|? ?]].
Qed.

Lemma filter_setitem_ne label label' s (cols : list (string * list cell)) :
  label ≠ label' →
  filter (λ c, c.1 = label')
    ((λ c, if decide (c.1 = label) then (label, s) else c) <$> cols) =
  filter (λ c, c.1 = label') cols.
Proof.
  intros Hne. induction cols as [|[l c] cols IH]; [done|].
  rewrite fmap_cons, !filter_cons. simpl.
  destruct (decide (l = label)) as [->|?]; simpl.
  - destruct (decide (label = label')); [done|]. by rewrite IH.
  - destruct (decide (l = label')); by rewrite IH.
Qed.

Lemma filter_setitem_eq label s (cols : list (string * list cell)) :
  Forall (λ c, c = (label, s))
    (filter (λ c, c.1 = label)
       ((λ c, if decide (c.1 = label) then (label, s) else c) <$> cols)).
Proof.
  induction cols as [|[l c] cols IH]; [by constructor|].
  rewrite fmap_cons, filter_cons. simpl.
  destruct (decide (l = label)) as [->|?]; simpl.
  - rewrite decide_True by done. by constructor.
  - by rewrite decide_False.
Qed.

Lemma getitem_setitem_ne df label label' s :
  label ≠ label' → getitem (setitem df label s) label' = getitem df label'.
Proof.
  intros Hne. unfold getitem, setitem. simpl.
  destruct (decide (label ∈ columns df)).
  - by rewrite filter_setitem_ne.
  - rewrite list.filter_app, filter_cons, filter_nil. simpl.
    rewrite decide_False by done. by rewrite app_nil_r.
Qed.

Lemma getitem_setitem_eq df label s s' :
  getitem (setitem df label s) label = inr s' → s' = s.
Proof.
  unfold getitem, setitem. simpl.
  destruct (decide (label ∈ columns df)) as [Hin|Hnin].
  - pose proof (filter_setitem_eq label s (data df)) as Hall.
    destruct (filter _ _) as [|c [|? ?]]; try done.
    intros [= <-]. inversion Hall; subst. done.
  - rewrite list.filter_app, filter_cons, filter_nil. simpl.
    rewrite decide_True by done.
    assert (filter (λ c, c.1 = label) (data df) = []) as ->.
    { destruct (filter _ (data df)) eqn:E; [done|].
      exfalso. apply Hnin, elem_of_columns. by rewrite E. }
    simpl. by intros [= <-].
Qed.

(** Several boolean indexings in a row. *)
Lemma getitem_locs df masks label :
  getitem (foldl loc df masks) label =
  (λ col, foldl (λ acc m, select m acc) col masks) <$> getitem df label.
Proof.
  revert df. induction masks as [|m masks IH]; intros df; simpl.
  - by destruct (getitem df label).
  - rewrite IH, getitem_loc. by destruct (getitem df label).
Qed.

Lemma selects_Forall {A} (P : A → Prop) masks (l : list A) :
  Forall P l → Forall P (foldl (λ acc m, select m acc) l masks).
Proof.
  revert l. induction masks as [|m masks IH]; intros l Hl; simpl; [done|].
  by apply IH, select_Forall.
Qed.

Lemma selects_fmap {A B} (f : A → B) masks (l : list A) :
  foldl (λ acc m, select m acc) (f <$> l) masks =
  f <$> foldl (λ acc m, select m acc) l masks.
Proof.
  revert l. induction masks as [|m masks IH]; intros l; simpl; [done|].
  by rewrite select_fmap, IH.
Qed.

Lemma update_inr df target source f df' :
  update df target source f = inr df' ↔
  ∃ s, getitem df source = inr s ∧ df' = setitem df target (f s).
Proof.
  unfold update. rewrite bind_inr.
  split; intros (s & Hs & Hdf); exists s; split; try done.
  - apply ret_inr in Hdf. by subst.
  - by subst.
Qed.

(** ** Options of the multiselects *)

Lemma elem_of_unique_notna s x : x ∈ unique_notna s ↔ x ∈ s ∧ x ≠ NA.
Proof.
  unfold unique_notna. rewrite elem_of_remove_dups, list_elem_of_filter.
  destruct x; unfold notna; simpl; split; intros [??]; split; done.
Qed.

Lemma sorted_inr l l' : sorted l = inr l' → l' ≡ₚ l.
Proof.
  unfold sorted. destruct (_ && _); [done|]. intros [= <-].
  apply merge_sort_Permutation.
Qed.

Lemma options_notna df label opts x :
  options df label = inr opts → x ∈ opts → x ≠ NA.
Proof.
  unfold options. rewrite bind_inr. intros (s & _ & Hs) Hx.
  apply sorted_inr in Hs. rewrite Hs in Hx.
  by apply elem_of_unique_notna in Hx as [_ ?].
Qed.

(** ** The filtered view *)

Lemma filter_tag_status_inr df u df' :
  filter_tag_status df u = inr df' ↔
  ∃ tags status,
    getitem df "Drug_Tag" = inr tags ∧
    getitem df "Economic_Status" = inr status ∧
    df' = loc df (mask_and (isin (drug_tags u) tags) (isin (econ_status u) status)).
Proof.
  unfold filter_tag_status. rewrite bind_inr. split.
  - intros (tags & Ht & Hrest). apply bind_inr in Hrest as (status & Hs & Hret).
    apply ret_inr in Hret. eauto 6.
  - intros (tags & status & Ht & Hs & ->). exists tags. split; [done|].
    apply bind_inr. exists status. by split.
Qed.

(** [df_price] is the cleaned prices indexed by the tag-and-status mask,
    and then by the country mask when countries are selected. *)
Lemma df_price_inr prices u dfp :
  df_price prices u = inr dfp →
  ∃ tags status masks,
    getitem prices "Drug_Tag" = inr tags ∧
    getitem prices "Economic_Status" = inr status ∧
    dfp = foldl loc prices
            (mask_and (isin (drug_tags u) tags) (isin (econ_status u) status) :: masks).
Proof.
  unfold df_price. rewrite bind_inr. intros (df1 & Hf & Hc).
  apply filter_tag_status_inr in Hf as (tags & status & Ht & Hs & ->).
  exists tags, status. destruct (countries u) as [|c cs].
  - apply ret_inr in Hc as <-. by exists [].
  - apply bind_inr in Hc as (col & Hcol & Hret). apply ret_inr in Hret as <-.
    by exists [isin (c :: cs) col].
Qed.

Lemma isin_spec (values : list cell) (x : cell) :
  bool_decide (x ∈ values) = true ↔ x ∈ values.
Proof. apply bool_decide_eq_true. Qed.

(** The last two assignments of the prices block: [Drug_Tag] is
    [tag_drug] of [Drug], row by row. *)
Lemma etl_prices_tags raw prices :
  etl_prices raw = inr prices →
  ∃ drugs,
    getitem prices "Drug" = inr drugs ∧
    ∀ tags, getitem prices "Drug_Tag" = inr tags →
            tags = (cell_of ∘ tag_drug) <$> drugs.
Proof.
  unfold etl_prices. cbv zeta. destruct (_ || _); [done|].
  intros Hetl.
  apply bind_inr in Hetl as (p1 & _ & Hetl).
  apply bind_inr in Hetl as (p2 & _ & Hetl).
  apply bind_inr in Hetl as (p3 & _ & Hetl).
  apply bind_inr in Hetl as (p4 & Htag & Hetl).
  apply update_inr in Htag as (drugs & Hdrugs & ->).
  apply update_inr in Hetl as (cs & _ & ->).
  exists drugs. split.
  - by rewrite !getitem_setitem_ne.
  - intros tags. rewrite getitem_setitem_ne by done.
    apply getitem_setitem_eq.
Qed.

(** C9.  In every completed run whose widgets hold what Streamlit can
    return, every row of [df_price] has a [Drug_Tag] that is one of the
    selected tags and is not missing, and its [Drug] text matches a
    keyword: the rows of the cleaned prices whose drug name matches no
    keyword are in no filtered view, whatever is selected. *)
Theorem df_price_rows_are_tagged (s : sheets) (u : widgets) (d : dashboard) :
  run s u = inr d →
  valid_widgets (out_prices d) u →
  ∃ tags drugs,
    getitem (out_df_price d) "Drug_Tag" = inr tags ∧
    getitem (out_df_price d) "Drug" = inr drugs ∧
    tags = (cell_of ∘ tag_drug) <$> drugs ∧
    Forall (λ t, t ∈ drug_tags u ∧ t ≠ NA) tags ∧
    Forall (λ x, tag_drug x ≠ None) drugs.
Proof.
  unfold run. intros Hrun Hvalid.
  apply bind_inr in Hrun as (prices & Hetl & Hrun).
  apply bind_inr in Hrun as (seizures & _ & Hrun).
  apply bind_inr in Hrun as (crimes & _ & Hrun).
  apply bind_inr in Hrun as (? & _ & Hrun).
  apply bind_inr in Hrun as (? & _ & Hrun).
  apply bind_inr in Hrun as (dfp & Hdfp & Hrun).
  apply bind_inr in Hrun as (? & _ & Hrun).
  apply bind_inr in Hrun as (? & _ & Hrun).
  apply bind_inr in Hrun as (? & _ & Hrun).
  apply ret_inr in Hrun as <-. simpl in *.
  destruct Hvalid as (topts & copts & Htopts & _ & Hsel & _).
  apply df_price_inr in Hdfp as (tags0 & status & masks & Ht0 & _ & ->).
  apply etl_prices_tags in Hetl as (drugs0 & Hd0 & Htags0).
  specialize (Htags0 _ Ht0). subst tags0.
  set (pick := λ A (col : list A),
         foldl (λ acc m, select m acc) col
           (mask_and (isin (drug_tags u) ((cell_of ∘ tag_drug) <$> drugs0))
                     (isin (econ_status u) status) :: masks)) in *.
  assert (Forall (λ t, t ∈ drug_tags u ∧ t ≠ NA)
            (pick _ ((cell_of ∘ tag_drug) <$> drugs0))) as Htags.
  { unfold pick. simpl. apply selects_Forall.
    eapply list.Forall_impl; [apply (select_test_l (λ x, bool_decide (x ∈ drug_tags u)))|].
    intros t Ht. simpl in Ht. apply isin_spec in Ht. split; [done|].
    eapply options_notna; [exact Htopts|]. by apply Hsel. }
  exists (pick _ ((cell_of ∘ tag_drug) <$> drugs0)), (pick _ drugs0).
  split; [|split; [|split; [|split]]].
  - by rewrite getitem_locs, Ht0.
  - by rewrite getitem_locs, Hd0.
  - unfold pick. simpl. by rewrite select_fmap, selects_fmap.
  - done.
  - assert (pick _ ((cell_of ∘ tag_drug) <$> drugs0)
            = (cell_of ∘ tag_drug) <$> pick _ drugs0) as E.
    { unfold pick. simpl. by rewrite select_fmap, selects_fmap. }
    rewrite E in Htags. apply Forall_fmap in Htags.
    eapply list.Forall_impl; [exact Htags|].
    intros drug [_ Hdrug]. simpl in Hdrug. intros E'. rewrite E' in Hdrug.
    by apply Hdrug.
Qed.

(** C10.  The ranking table, the top-15 bar data and the map data of a
    completed run do not depend on the widgets: two completed runs on the
    same sheets show the same three tables, whatever the selections (and
    the sliders) are. *)
Theorem traffic_views_ignore_widgets (s : sheets) (u1 u2 : widgets) (d1 d2 : dashboard) :
  run s u1 = inr d1 →
  run s u2 = inr d2 →
  out_traffic_rank d1 = out_traffic_rank d2 ∧
  out_top_traffic d1 = out_top_traffic d2 ∧
  out_map d1 = out_map d2.
Proof.
  unfold run. intros Hrun1 Hrun2.
  apply bind_inr in Hrun1 as (prices & Hetl & Hrun1).
  rewrite Hetl in Hrun2. simpl in Hrun2.
  apply bind_inr in Hrun1 as (seizures & Hs & Hrun1).
  rewrite Hs in Hrun2. simpl in Hrun2.
  apply bind_inr in Hrun1 as (crimes & Hc & Hrun1).
  rewrite Hc in Hrun2. simpl in Hrun2.
  apply bind_inr in Hrun1 as (? & _ & Hrun1).
  apply bind_inr in Hrun1 as (? & _ & Hrun1).
  apply bind_inr in Hrun1 as (? & _ & Hrun1).
  apply bind_inr in Hrun1 as (? & _ & Hrun1).
  apply bind_inr in Hrun1 as (rank & Hrank & Hrun1).
  apply bind_inr in Hrun1 as (? & _ & Hrun1).
  apply ret_inr in Hrun1 as <-.
  apply bind_inr in Hrun2 as (? & _ & Hrun2).
  apply bind_inr in Hrun2 as (? & _ & Hrun2).
  apply bind_inr in Hrun2 as (? & _ & Hrun2).
  apply bind_inr in Hrun2 as (? & _ & Hrun2).
  apply bind_inr in Hrun2 as (rank' & Hrank' & Hrun2).
  apply bind_inr in Hrun2 as (? & _ & Hrun2).
  apply ret_inr in Hrun2 as <-. simpl.
  rewrite Hrank in Hrank'. by injection Hrank' as <-.
Qed.

(** ** Group-by *)

Lemma elem_of_group_keys keys k : k ∈ group_keys keys ↔ k ∈ keys ∧ k ≠ NA.
Proof.
  unfold group_keys. rewrite merge_sort_Permutation. apply elem_of_unique_notna.
Qed.

Lemma NoDup_group_keys keys : NoDup (group_keys keys).
Proof.
  unfold group_keys. rewrite merge_sort_Permutation. apply NoDup_remove_dups.
Qed.

(** One output row per key, in the order of the keys, holding the sum of
    the key's group. *)
Lemma sum_groups_inr value keys vals ks rows :
  sum_groups value keys vals ks = inr rows →
  rows.*1 = ks ∧
  Forall (λ row, group_sum value (group_of row.1 keys vals) = inr row.2) rows.
Proof.
  revert rows. induction ks as [|k ks IH]; intros rows; simpl.
  - intros E%ret_inr. subst. by split.
  - intros E. apply bind_inr in E as (total & Htotal & E).
    apply bind_inr in E as (rest & Hrest & E). apply ret_inr in E as <-.
    destruct (IH _ Hrest) as [Hk Hall]. split; [simpl; by f_equal|].
    by constructor.
Qed.

Lemma groupby_sum_inr df key value rows :
  groupby_sum df key value = inr rows →
  ∃ keys vals,
    getitem df key = inr keys ∧ getitem df value = inr vals ∧
    rows.*1 = group_keys keys ∧
    Forall (λ row, group_sum value (group_of row.1 keys vals) = inr row.2) rows.
Proof.
  unfold groupby_sum. intros E.
  apply bind_inr in E as (keys & Hkeys & E).
  apply bind_inr in E as (vals & Hvals & E).
  apply sum_groups_inr in E as [Hk Hall]. by exists keys, vals.
Qed.

(** ** Inner merge *)

Lemma merge_inner_cons {A B} k (a : A) left (right : list (cell * B)) :
  merge_inner ((k, a) :: left) right = matches k a right ++ merge_inner left right.
Proof. done. Qed.

Lemma elem_of_matches {A B} k (a : A) (right : list (cell * B)) row :
  row ∈ matches k a right ↔ ∃ b, row = (k, a, b) ∧ (k, b) ∈ right.
Proof.
  unfold matches. rewrite list_elem_of_bind. split.
  - intros ([k' b] & Hrow & Hin). destruct (decide (k = k')) as [<-|?].
    + apply list_elem_of_singleton in Hrow. eauto.
    + by apply elem_of_nil in Hrow.
  - intros (b & -> & Hin). exists (k, b). split; [|done].
    rewrite decide_True by done. by apply list_elem_of_singleton.
Qed.

Lemma elem_of_merge_inner {A B} (left : list (cell * A)) (right : list (cell * B)) k a b :
  (k, a, b) ∈ merge_inner left right ↔ (k, a) ∈ left ∧ (k, b) ∈ right.
Proof.
  induction left as [|[k' a'] left IH].
  - unfold merge_inner. simpl. rewrite !elem_of_nil. by intros; split; [|intros []].
  - rewrite merge_inner_cons, elem_of_app, elem_of_matches, IH, elem_of_cons.
    split.
    + intros [(b' & [= -> -> ->] & Hin)|[? ?]]; auto.
    + intros [[[= -> ->]|Hin] Hr]; [left; eauto|right; auto].
Qed.

Lemma matches_absent {A B} k (a : A) (right : list (cell * B)) :
  k ∉ right.*1 → matches k a right = [].
Proof.
  induction right as [|[k' b] right IH]; [done|].
  rewrite fmap_cons, not_elem_of_cons. simpl. intros [Hne Hnin].
  unfold matches in *. simpl. rewrite decide_False by done. simpl. by apply IH.
Qed.

Lemma matches_keys {A B} k (a : A) (right : list (cell * B)) :
  NoDup right.*1 → NoDup (matches k a right).*1.*1.
Proof.
  induction right as [|[k' b] right IH]; [constructor|].
  rewrite fmap_cons, list.NoDup_cons. simpl. intros [Hnin Hnd].
  change (matches k a ((k', b) :: right))
    with ((if decide (k = k') then [(k, a, b)] else []) ++ matches k a right).
  destruct (decide (k = k')) as [<-|?]; simpl; [|by apply IH].
  rewrite matches_absent by done. apply NoDup_singleton.
Qed.

Lemma merge_inner_keys {A B} (left : list (cell * A)) (right : list (cell * B)) :
  NoDup left.*1 → NoDup right.*1 → NoDup (merge_inner left right).*1.*1.
Proof.
  intros Hl Hr. induction left as [|[k a] left IH]; [constructor|].
  rewrite fmap_cons, list.NoDup_cons in Hl. simpl in Hl. destruct Hl as [Hnin Hl].
  rewrite merge_inner_cons, !fmap_app. apply list.NoDup_app. split; [|split].
  - by apply matches_keys.
  - intros k' Hk' Hk''.
    apply list_elem_of_fmap in Hk' as ([k1 a1] & -> & Hk').
    apply list_elem_of_fmap in Hk' as ([[k2 a2] b2] & [= -> ->] & Hk').
    apply elem_of_matches in Hk' as (b & [= -> -> ->] & _).
    apply list_elem_of_fmap in Hk'' as ([k1 a1] & Heq & Hk'').
    apply list_elem_of_fmap in Hk'' as ([[k2 a2] b2] & [= -> ->] & Hk'').
    simpl in Heq. subst k2.
    apply elem_of_merge_inner in Hk'' as [Hk'' _].
    apply Hnin. apply list_elem_of_fmap. by exists (k, a2).
  - by apply IH.
Qed.

(** ** Maximum of a column *)

Lemma Qc_max_ge_l a b : (a <= Qc_max a b)%Qc.
Proof. unfold Qc_max. destruct (decide _); [done|apply Qcle_refl]. Qed.

Lemma Qc_max_ge_r a b : (b <= Qc_max a b)%Qc.
Proof.
  unfold Qc_max. destruct (decide _) as [|Hn]; [apply Qcle_refl|].
  apply Qclt_le_weak. by apply Qcnot_le_lt.
Qed.

Lemma Qc_max_cases a b : Qc_max a b = a ∨ Qc_max a b = b.
Proof. unfold Qc_max. destruct (decide _); auto. Qed.

Lemma foldr_max_spec x l :
  foldr Qc_max x l ∈ x :: l ∧
  (x <= foldr Qc_max x l)%Qc ∧ Forall (λ y, (y <= foldr Qc_max x l)%Qc) l.
Proof.
  induction l as [|y l (Hin & Hx & Hall)]; simpl.
  - split; [by left|]. split; [apply Qcle_refl|constructor].
  - split; [|split].
    + destruct (Qc_max_cases y (foldr Qc_max x l)) as [->| ->].
      * right. by left.
      * apply elem_of_cons in Hin as [->|Hin]; [by left|]. right. by right.
    + eapply Qcle_trans; [exact Hx|apply Qc_max_ge_r].
    + constructor; [apply Qc_max_ge_l|].
      eapply list.Forall_impl; [exact Hall|].
      intros z Hz. eapply Qcle_trans; [exact Hz|apply Qc_max_ge_r].
Qed.

(** [series_max] is a value of the column and bounds every value. *)
Lemma series_max_spec l m :
  series_max l = Some m → m ∈ l ∧ Forall (λ y, (y <= m)%Qc) l.
Proof.
  destruct l as [|x l]; [done|]. simpl. intros [= <-].
  destruct (foldr_max_spec x l) as (Hin & Hx & Hall). split; [done|].
  by constructor.
Qed.

Lemma series_max_is_Some l : l ≠ [] → is_Some (series_max l).
Proof. destruct l; [done|]. by eexists. Qed.

(** ** Traffic ranking *)

Lemma score_Country rows : Country <$> score rows = rows.*1.*1.
Proof. unfold score. rewrite <- !list_fmap_compose. by apply list_fmap_ext. Qed.

Lemma score_Kilograms rows : Kilograms <$> score rows = rows.*1.*2.
Proof. unfold score. rewrite <- !list_fmap_compose. by apply list_fmap_ext. Qed.

Lemma score_Calculated_total rows : Calculated_total <$> score rows = rows.*2.
Proof. unfold score. rewrite <- !list_fmap_compose. by apply list_fmap_ext. Qed.

Lemma elem_of_score rows r :
  r ∈ score rows →
  (Country r, Kilograms r, Calculated_total r) ∈ rows ∧
  Traffic_Score r =
    fadd (fdiv_opt (Kilograms r) (series_max (Kilograms <$> score rows)))
         (fdiv_opt (Calculated_total r) (series_max (Calculated_total <$> score rows))).
Proof.
  rewrite score_Kilograms, score_Calculated_total. unfold score.
  intros ([[k a] b] & -> & Hin)%list_elem_of_fmap. by simpl.
Qed.

Lemma fdiv_nonzero a b : b ≠ Q2Qc 0 → fdiv a b = Fin (a / b).
Proof. intros Hb. unfold fdiv. by rewrite decide_False. Qed.

Lemma elem_of_fst {A B} (l : list (A * B)) a : a ∈ l.*1 ↔ ∃ b, (a, b) ∈ l.
Proof.
  rewrite list_elem_of_fmap. split.
  - intros ([a' b] & -> & Hin). by exists b.
  - intros (b & Hin). by exists (a, b).
Qed.

Lemma number_of_num x : is_num x = true → x = Num (number_of x).
Proof. by destruct x. Qed.

(** What a completed ranking is made of: the two group-bys succeeded, every
    sum left by the merge is a number, and the score is computed from
    those numbers. *)
Lemma traffic_rank_inr seizures crimes rank :
  traffic_rank seizures crimes = inr rank →
  ∃ seiz_country crime_country,
    groupby_sum seizures "Country" "Kilograms" = inr seiz_country ∧
    groupby_sum crimes "Country" "Calculated_total" = inr crime_country ∧
    Forall (λ r, is_num r.1.2 = true ∧ is_num r.2 = true)
           (merge_inner seiz_country crime_country) ∧
    rank = score ((λ r, (r.1.1, number_of r.1.2, number_of r.2))
                    <$> merge_inner seiz_country crime_country).
Proof.
  unfold traffic_rank. intros E.
  apply bind_inr in E as (sc & Hsc & E).
  apply bind_inr in E as (cc & Hcc & E). cbv zeta in E.
  destruct (forallb is_num (merge_inner sc cc).*1.*2) eqn:Hk; [|done].
  destruct (forallb is_num (merge_inner sc cc).*2) eqn:Hc; [|done].
  simpl in E. apply ret_inr in E as <-.
  exists sc, cc. repeat (split; [done|]). split; [|done].
  rewrite forallb_forall in Hk, Hc.
  apply list.Forall_forall. intros r Hin. split.
  - apply Hk, list_elem_of_In. by do 2 apply list_elem_of_fmap_2.
  - apply Hc, list_elem_of_In. by apply list_elem_of_fmap_2.
Qed.

(** C8.  Take seizures and crimes whose countries are texts, a completed
    ranking of them, and let its sums fit an int64 (where the exact sum is
    the sum an int64 column gives; the rounding of a float64 column is not
    modelled).  The Country, Kilograms and Calculated_total columns were
    found; the ranking has exactly one row for every country present in
    both tables (the inner join of the two group-bys on Country); a row
    holds the sum of the country's Kilograms and the sum of its
    Calculated_total, both numbers; and when the two maxima are not zero
    its Traffic_Score is the first sum divided by the largest Kilograms sum
    of the ranking plus the second sum divided by the largest
    Calculated_total sum of the ranking.  No minimum enters the score.
    (A text among the totals of a country that is in one table only does
    not stop the ranking: its group sum is a text that leaves with the
    merge.) *)
Theorem traffic_score_by_maximum (seizures crimes : DataFrame) (rank : list traffic_row) :
  text_column seizures "Country" →
  text_column crimes "Country" →
  traffic_rank seizures crimes = inr rank →
  Forall (λ r, in_int64 (Kilograms r) ∧ in_int64 (Calculated_total r)) rank →
  ∃ skeys svals ckeys cvals,
    getitem seizures "Country" = inr skeys ∧
    getitem seizures "Kilograms" = inr svals ∧
    getitem crimes "Country" = inr ckeys ∧
    getitem crimes "Calculated_total" = inr cvals ∧
    NoDup (Country <$> rank) ∧
    (∀ c, c ∈ Country <$> rank ↔ c ≠ NA ∧ c ∈ skeys ∧ c ∈ ckeys) ∧
    Forall (λ r,
      group_sum "Kilograms" (group_of (Country r) skeys svals)
        = inr (Num (Kilograms r)) ∧
      group_sum "Calculated_total" (group_of (Country r) ckeys cvals)
        = inr (Num (Calculated_total r)) ∧
      ∃ kmax cmax,
        series_max (Kilograms <$> rank) = Some kmax ∧
        series_max (Calculated_total <$> rank) = Some cmax ∧
        kmax ∈ Kilograms <$> rank ∧ cmax ∈ Calculated_total <$> rank ∧
        Forall (λ r', (Kilograms r' <= kmax)%Qc ∧ (Calculated_total r' <= cmax)%Qc) rank ∧
        (kmax ≠ Q2Qc 0 → cmax ≠ Q2Qc 0 →
         Traffic_Score r =
           Fin (Kilograms r / kmax + Calculated_total r / cmax)%Qc)) rank.
Proof.
  intros _ _ E _.
  apply traffic_rank_inr in E as (sc & cc & Hsc & Hcc & Hnum & ->).
  apply groupby_sum_inr in Hsc as (skeys & svals & Hskeys & Hsvals & Hsk & Hssum).
  apply groupby_sum_inr in Hcc as (ckeys & cvals & Hckeys & Hcvals & Hck & Hcsum).
  exists skeys, svals, ckeys, cvals. repeat (split; [done|]).
  set (numeric := λ r : cell * cell * cell, (r.1.1, number_of r.1.2, number_of r.2)).
  assert ((numeric <$> merge_inner sc cc).*1.*1 = (merge_inner sc cc).*1.*1) as Hkeys.
  { rewrite <- !list_fmap_compose. by apply list_fmap_ext. }
  split; [|split].
  - rewrite score_Country, Hkeys. apply merge_inner_keys.
    + rewrite Hsk. apply NoDup_group_keys.
    + rewrite Hck. apply NoDup_group_keys.
  - intros c. rewrite score_Country, Hkeys. split.
    + intros (a & (b & Hin)%elem_of_fst)%elem_of_fst.
      apply elem_of_merge_inner in Hin as [Hl Hr].
      assert (c ∈ sc.*1) as Hc1 by (apply elem_of_fst; eauto).
      assert (c ∈ cc.*1) as Hc2 by (apply elem_of_fst; eauto).
      rewrite Hsk in Hc1. rewrite Hck in Hc2.
      apply elem_of_group_keys in Hc1 as [? ?].
      apply elem_of_group_keys in Hc2 as [? ?]. done.
    + intros (Hna & Hs & Hc).
      assert (c ∈ sc.*1) as (a & Ha)%elem_of_fst
        by (rewrite Hsk; by apply elem_of_group_keys).
      assert (c ∈ cc.*1) as (b & Hb)%elem_of_fst
        by (rewrite Hck; by apply elem_of_group_keys).
      apply elem_of_fst. exists a. apply elem_of_fst. exists b.
      by apply elem_of_merge_inner.
  - apply list.Forall_forall. intros r Hr.
    pose proof Hr as Hr'.
    apply elem_of_score in Hr as [Hin Hscore].
    apply list_elem_of_fmap in Hin as ([[k a] b] & Heq & Hin).
    rewrite list.Forall_forall in Hnum.
    destruct (Hnum _ Hin) as [Ha Hb]. simpl in Ha, Hb.
    unfold numeric in Heq. simpl in Heq. injection Heq as Hk HK HC.
    apply elem_of_merge_inner in Hin as [Hl Hrt].
    rewrite list.Forall_forall in Hssum, Hcsum.
    split.
    { rewrite Hk, HK, <- (number_of_num a Ha). exact (Hssum _ Hl). }
    split.
    { rewrite Hk, HC, <- (number_of_num b Hb). exact (Hcsum _ Hrt). }
    set (rank := score (numeric <$> merge_inner sc cc)) in *.
    destruct (series_max_is_Some (Kilograms <$> rank)) as [kmax Hkmax].
    { intros Hnil. apply fmap_nil_inv in Hnil. rewrite Hnil in Hr'.
      by apply elem_of_nil in Hr'. }
    destruct (series_max_is_Some (Calculated_total <$> rank)) as [cmax Hcmax].
    { intros Hnil. apply fmap_nil_inv in Hnil. rewrite Hnil in Hr'.
      by apply elem_of_nil in Hr'. }
    exists kmax, cmax.
    destruct (series_max_spec _ _ Hkmax) as [Hkin Hkall].
    destruct (series_max_spec _ _ Hcmax) as [Hcin Hcall].
    repeat (split; [done|]). split.
    + rewrite list.Forall_forall in Hkall, Hcall.
      apply list.Forall_forall. intros r'' Hr''.
      split; [apply Hkall|apply Hcall]; by apply list_elem_of_fmap_2.
    + intros Hk0 Hc0. rewrite Hscore, Hkmax, Hcmax. simpl.
      by rewrite !fdiv_nonzero.
Qed.

(** ** Revenue simulation *)

Lemma agg_groups_inr keys vals ks rows :
  agg_groups keys vals ks = inr rows →
  rows.*1.*1 = ks ∧
  Forall (λ row,
    agg_mean "Price_USD" (group_of row.1.1 keys vals) = inr row.1.2 ∧
    row.2 = agg_count (group_of row.1.1 keys vals)) rows.
Proof.
  revert rows. induction ks as [|k ks IH]; intros rows; simpl.
  - intros E%ret_inr. subst. by split.
  - intros E. apply bind_inr in E as (avg & Havg & E).
    apply bind_inr in E as (rest & Hrest & E). apply ret_inr in E as <-.
    destruct (IH _ Hrest) as [Hk Hall]. split; [simpl; by f_equal|].
    by constructor.
Qed.

Lemma country_sim_inr df u sim :
  country_sim df u = inr sim →
  ∃ keys vals agg,
    getitem df "Country" = inr keys ∧
    getitem df "Price_USD" = inr vals ∧
    country_agg df = inr agg ∧
    agg.*1.*1 = group_keys keys ∧
    Forall (λ row,
      agg_mean "Price_USD" (group_of row.1.1 keys vals) = inr row.1.2 ∧
      row.2 = agg_count (group_of row.1.1 keys vals)) agg ∧
    sim = (λ row, simulate u row.1.1 row.1.2 row.2) <$> agg.
Proof.
  unfold country_sim. intros E. apply bind_inr in E as (agg & Hagg & E).
  apply ret_inr in E as <-. pose proof Hagg as Hagg'.
  unfold country_agg in Hagg.
  apply bind_inr in Hagg as (keys & Hkeys & Hagg).
  apply bind_inr in Hagg as (vals & Hvals & Hagg).
  apply agg_groups_inr in Hagg as [Hk Hall].
  by exists keys, vals, agg.
Qed.

Local Open Scope Qc_scope.

Lemma Qc_100_pos : Q2Qc 0 < Qc_of_Z 100.
Proof. rewrite <- Z2Qc_inj_0. by apply (proj1 (Z2Qc_inj_lt _ _)). Qed.

Lemma Qc_100_ne : Qc_of_Z 100 ≠ Q2Qc 0.
Proof. rewrite <- Z2Qc_inj_0. by intros E%Z2Qc_inj. Qed.

Lemma percent_pos (z : Z) : (0 < z)%Z → Q2Qc 0 < Qc_of_Z z / Qc_of_Z 100.
Proof.
  intros Hz. unfold Qcdiv. apply Qcmult_pos_pos.
  - rewrite <- Z2Qc_inj_0. by apply (proj1 (Z2Qc_inj_lt _ _)).
  - apply Qcinv_pos, Qc_100_pos.
Qed.

Lemma percent_lt (x y : Z) :
  (x < y)%Z → Qc_of_Z x / Qc_of_Z 100 < Qc_of_Z y / Qc_of_Z 100.
Proof.
  intros Hxy. unfold Qcdiv. apply Qcmult_lt_compat_r.
  - apply Qcinv_pos, Qc_100_pos.
  - by apply (proj1 (Z2Qc_inj_lt _ _)).
Qed.

Lemma discount_pos (r : Z) : (r < 100)%Z → Q2Qc 0 < 1 - Qc_of_Z r / Qc_of_Z 100.
Proof.
  intros Hr.
  replace (1 - Qc_of_Z r / Qc_of_Z 100) with (Qc_of_Z (100 - r) / Qc_of_Z 100).
  - apply percent_pos. lia.
  - rewrite Z2Qc_inj_sub. field. apply Qc_100_ne.
Qed.

(** The sign of the average price decides which way the revenue moves
    with the tax rate. *)
Lemma revenue_cases (a f x y v : Qc) :
  Q2Qc 0 < f → x < y →
  (Q2Qc 0 < a → Q2Qc 0 < v → a * f * x * v < a * f * y * v) ∧
  (a < Q2Qc 0 → Q2Qc 0 < v → a * f * y * v < a * f * x * v) ∧
  (a = Q2Qc 0 ∨ v = Q2Qc 0 →
   a * f * x * v = Q2Qc 0 ∧ a * f * y * v = Q2Qc 0).
Proof.
  intros Hf Hxy. split; [|split].
  - intros Ha Hv'. apply Qcmult_lt_compat_r; [done|].
    apply Qcmult_lt_mono_pos_l; [|done]. by apply Qcmult_pos_pos.
  - intros Ha Hv'. apply Qclt_minus_iff.
    apply Qclt_minus_iff in Ha, Hxy.
    replace (a * f * x * v + - (a * f * y * v))
      with ((Q2Qc 0 + - a) * f * (y + - x) * v) by ring.
    repeat apply Qcmult_pos_pos; done.
  - intros [-> | ->]; split; ring.
Qed.

Lemma simulate_finite u c a n :
  Legal_Price (simulate u c (Fin a) n)
    = Fin (a * (1 - Qc_of_Z (price_reduction u) / Qc_of_Z 100)) ∧
  Tax_Revenue (simulate u c (Fin a) n)
    = Fin (a * (1 - Qc_of_Z (price_reduction u) / Qc_of_Z 100)
             * (Qc_of_Z (tax_rate u) / Qc_of_Z 100)
             * Qc_of_Z (Z.of_nat n * 800)).
Proof. done. Qed.

(** C6.  In a completed run the simulation has a row for every country
    of the filtered prices.  The row holds the mean and the count of the
    country's prices, Estimated_Volume = Transactions × 800, Legal_Price
    = Avg_Price × (1 − price_reduction / 100) and Tax_Revenue =
    Legal_Price × (tax_rate / 100) × Estimated_Volume.  With an average
    price of 100, 10 transactions, a tax rate of 20 and a price reduction
    of 30 the three values are 8000, 70 and 112000. *)
Theorem revenue_simulation_formulas :
  (∀ (s : sheets) (u : widgets) (d : dashboard),
     run s u = inr d →
     ∃ keys vals,
       getitem (out_df_price d) "Country" = inr keys ∧
       getitem (out_df_price d) "Price_USD" = inr vals ∧
       (∀ c, c ∈ keys → c ≠ NA →
             ∃ r, r ∈ out_country_sim d ∧ sim_Country r = c) ∧
       Forall (λ r,
         sim_Country r ∈ keys ∧
         agg_mean "Price_USD" (group_of (sim_Country r) keys vals)
           = inr (Avg_Price r) ∧
         Transactions r = agg_count (group_of (sim_Country r) keys vals) ∧
         Estimated_Volume r = (Z.of_nat (Transactions r) * 800)%Z ∧
         Legal_Price r =
           fmul (Avg_Price r)
                (Fin (1 - Qc_of_Z (price_reduction u) / Qc_of_Z 100)) ∧
         Tax_Revenue r =
           fmul (fmul (Legal_Price r) (Fin (Qc_of_Z (tax_rate u) / Qc_of_Z 100)))
                (Fin (Qc_of_Z (Estimated_Volume r))) ∧
         ∀ a, Avg_Price r = Fin a →
           Legal_Price r
             = Fin (a * (1 - Qc_of_Z (price_reduction u) / Qc_of_Z 100)) ∧
           Tax_Revenue r
             = Fin (a * (1 - Qc_of_Z (price_reduction u) / Qc_of_Z 100)
                      * (Qc_of_Z (tax_rate u) / Qc_of_Z 100)
                      * Qc_of_Z (Estimated_Volume r)))
         (out_country_sim d)) ∧
  (∀ (u : widgets) (c : cell),
     tax_rate u = 20%Z → price_reduction u = 30%Z →
     Estimated_Volume (simulate u c (Fin (Qc_of_Z 100)) 10) = 8000%Z ∧
     Legal_Price (simulate u c (Fin (Qc_of_Z 100)) 10) = Fin (Qc_of_Z 70) ∧
     Tax_Revenue (simulate u c (Fin (Qc_of_Z 100)) 10) = Fin (Qc_of_Z 112000)).
Proof.
  split.
  - intros s u d Hrun. unfold run in Hrun.
    apply bind_inr in Hrun as (prices & _ & Hrun).
    apply bind_inr in Hrun as (seizures & _ & Hrun).
    apply bind_inr in Hrun as (crimes & _ & Hrun).
    apply bind_inr in Hrun as (? & _ & Hrun).
    apply bind_inr in Hrun as (? & _ & Hrun).
    apply bind_inr in Hrun as (dfp & _ & Hrun).
    apply bind_inr in Hrun as (? & _ & Hrun).
    apply bind_inr in Hrun as (? & _ & Hrun).
    apply bind_inr in Hrun as (sim & Hsim & Hrun).
    apply ret_inr in Hrun as <-. simpl.
    apply country_sim_inr in Hsim
      as (keys & vals & agg & Hkeys & Hvals & _ & Hk & Hall & ->).
    exists keys, vals. split; [done|]. split; [done|]. split.
    + intros c Hc Hna.
      assert (c ∈ agg.*1.*1) as Hin
        by (rewrite Hk; by apply elem_of_group_keys).
      apply elem_of_fst in Hin as (n & Hin).
      apply elem_of_fst in Hin as (avg & Hin).
      exists (simulate u c n avg). split; [|done].
      apply list_elem_of_fmap. by exists (c, n, avg).
    + apply Forall_fmap. apply list.Forall_forall.
      intros [[k avg] n] Hin. rewrite list.Forall_forall in Hall.
      destruct (Hall _ Hin) as [Hmean Hcount]. simpl in *.
      split.
      { assert (k ∈ agg.*1.*1) as Hk'.
        { apply elem_of_fst. exists avg. apply elem_of_fst. by exists n. }
        rewrite Hk in Hk'. by apply elem_of_group_keys in Hk' as [? _]. }
      repeat (split; [done|]).
      intros a ->. exact (simulate_finite u k a n).
  - intros u c Ht Hr. unfold simulate. simpl. rewrite Ht, Hr.
    split; [done|]. split; f_equal; apply Qc_is_canon; by vm_compute.
Qed.

Lemma df_price_set_tax_rate prices u t :
  df_price prices (set_tax_rate u t) = df_price prices u.
Proof. done. Qed.

Lemma volume_cases (n : nat) :
  Qc_of_Z (Z.of_nat n * 800) = Q2Qc 0 ∨ Q2Qc 0 < Qc_of_Z (Z.of_nat n * 800).
Proof.
  destruct n as [|n].
  - left. by rewrite <- Z2Qc_inj_0.
  - right. rewrite <- Z2Qc_inj_0. apply (proj1 (Z2Qc_inj_lt _ _)). lia.
Qed.

(** C7 (as the code has it).  Take two completed runs on the same sheets
    that differ in the tax rate only, [t1 < t2], both within the slider
    range, with the price reduction within its range.  The simulations
    have the same countries, averages and counts, row by row.  For a row
    whose average price is not negative, the revenue at [t2] is greater
    than at [t1], or both are zero.  For a row whose average price is
    negative the revenue at [t2] is smaller than at [t1], or both are
    zero: nothing in the script keeps prices positive. *)
Theorem tax_revenue_monotone_when_price_nonnegative
    (s : sheets) (u : widgets) (t1 t2 : Z) (d1 d2 : dashboard) :
  run s (set_tax_rate u t1) = inr d1 →
  run s (set_tax_rate u t2) = inr d2 →
  (5 ≤ t1)%Z → (t1 < t2)%Z → (t2 ≤ 50)%Z →
  (0 ≤ price_reduction u)%Z → (price_reduction u ≤ 60)%Z →
  Forall2 (λ r1 r2,
    sim_Country r1 = sim_Country r2 ∧
    Avg_Price r1 = Avg_Price r2 ∧
    Transactions r1 = Transactions r2 ∧
    ∀ a, Avg_Price r1 = Fin a →
      (Q2Qc 0 <= a →
         num_lt (Tax_Revenue r1) (Tax_Revenue r2) ∨
         (Tax_Revenue r1 = Fin (Q2Qc 0) ∧ Tax_Revenue r2 = Fin (Q2Qc 0))) ∧
      (a < Q2Qc 0 →
         num_lt (Tax_Revenue r2) (Tax_Revenue r1) ∨
         (Tax_Revenue r1 = Fin (Q2Qc 0) ∧ Tax_Revenue r2 = Fin (Q2Qc 0))))
    (out_country_sim d1) (out_country_sim d2).
Proof.
  unfold run. intros Hrun1 Hrun2 Ht1 Ht12 Ht2 Hr0 Hr60.
  apply bind_inr in Hrun1 as (prices & Hetl & Hrun1).
  rewrite Hetl in Hrun2. simpl in Hrun2.
  apply bind_inr in Hrun1 as (seizures & Hs & Hrun1).
  rewrite Hs in Hrun2. simpl in Hrun2.
  apply bind_inr in Hrun1 as (crimes & Hc & Hrun1).
  rewrite Hc in Hrun2. simpl in Hrun2.
  apply bind_inr in Hrun1 as (? & _ & Hrun1).
  apply bind_inr in Hrun1 as (? & _ & Hrun1).
  apply bind_inr in Hrun1 as (dfp & Hdfp & Hrun1).
  apply bind_inr in Hrun1 as (? & _ & Hrun1).
  apply bind_inr in Hrun1 as (? & _ & Hrun1).
  apply bind_inr in Hrun1 as (sim1 & Hsim1 & Hrun1).
  apply ret_inr in Hrun1 as <-.
  apply bind_inr in Hrun2 as (? & _ & Hrun2).
  apply bind_inr in Hrun2 as (? & _ & Hrun2).
  apply bind_inr in Hrun2 as (dfp' & Hdfp' & Hrun2).
  apply bind_inr in Hrun2 as (? & _ & Hrun2).
  apply bind_inr in Hrun2 as (? & _ & Hrun2).
  apply bind_inr in Hrun2 as (sim2 & Hsim2 & Hrun2).
  apply ret_inr in Hrun2 as <-. simpl.
  rewrite df_price_set_tax_rate in Hdfp, Hdfp'.
  rewrite Hdfp in Hdfp'. injection Hdfp' as <-.
  apply country_sim_inr in Hsim1 as (_ & _ & agg & _ & _ & Hagg & _ & _ & ->).
  apply country_sim_inr in Hsim2 as (_ & _ & agg' & _ & _ & Hagg' & _ & _ & ->).
  rewrite Hagg in Hagg'. injection Hagg' as <-.
  apply Forall2_fmap, Forall_Forall2_diag, list.Forall_forall.
  intros [[k avg] n] _. simpl. repeat (split; [done|]).
  intros a ->.
  cbn [fmul num_lt].
  destruct (revenue_cases a
              (1 - Qc_of_Z (price_reduction u) / Qc_of_Z 100)
              (Qc_of_Z t1 / Qc_of_Z 100) (Qc_of_Z t2 / Qc_of_Z 100)
              (Qc_of_Z (Z.of_nat n * 800)))
    as (Hpos & Hneg & Hzero).
  { apply discount_pos. lia. }
  { by apply percent_lt. }
  destruct (volume_cases n) as [Hv|Hv].
  { split; intros _; right;
      destruct Hzero as [-> ->]; auto. }
  split.
  - intros [Ha|<-]%Qcle_lt_or_eq.
    + left. by apply Hpos.
    + right. destruct Hzero as [-> ->]; auto.
  - intros Ha. left. by apply Hneg.
Qed.

Local Close Scope Qc_scope.

(** ** Halting *)

Lemma getitem_not_diagnosed df label : ¬ diagnosed (getitem df label).
Proof.
  unfold getitem. intros (m & w & E).
  by destruct (filter _ (data df)) as [|? [|? ?]].
Qed.

Lemma dropna_not_diagnosed labels df : ¬ diagnosed (dropna labels df).
Proof.
  unfold dropna. intros (m & w & E). by destruct (filter _ labels).
Qed.

Lemma bind_not_diagnosed {A B} (m : result A) (k : A → result B) :
  ¬ diagnosed m → (∀ a, ¬ diagnosed (k a)) → ¬ diagnosed (m ≫= k).
Proof.
  intros Hm Hk (msg & w & E). destruct m as [e|a]; simpl in E.
  - apply Hm. exists msg, w. by injection E as ->.
  - apply (Hk a). by exists msg, w.
Qed.

Lemma update_not_diagnosed df target source f :
  ¬ diagnosed (update df target source f).
Proof.
  unfold update. apply bind_not_diagnosed; [apply getitem_not_diagnosed|].
  by intros a (m & w & E).
Qed.

(** The seizures and crimes blocks never reach [st.stop()]. *)
Lemma etl_seizures_not_diagnosed df : ¬ diagnosed (etl_seizures df).
Proof.
  unfold etl_seizures. cbv zeta.
  repeat (apply bind_not_diagnosed;
          [first [apply update_not_diagnosed|apply dropna_not_diagnosed]|intros ?]).
  apply update_not_diagnosed.
Qed.

Lemma etl_crimes_not_diagnosed df : ¬ diagnosed (etl_crimes df).
Proof.
  unfold etl_crimes. cbv zeta.
  repeat (apply bind_not_diagnosed;
          [first [apply update_not_diagnosed|apply dropna_not_diagnosed]|intros ?]).
  apply update_not_diagnosed.
Qed.

(** A detected column has a label. *)
Lemma detect_truthy candidates df :
  existsb (λ c, String.eqb (lower "") (lower c)) candidates = false →
  truthy (detect candidates df) = negb (bool_decide (detect candidates df = None)).
Proof.
  intros Hempty. unfold detect.
  destruct (List.find _ (columns df)) as [col|] eqn:E; [|done].
  apply find_some in E as [_ E]. destruct col; [congruence|done].
Qed.

(** The prices block stops with the diagnostic exactly when a detector
    finds nothing, and then writes every normalized column label. *)
Lemma etl_prices_diagnosed prices :
  let normalized := map_columns normalize_prices prices in
  (detect_year_column normalized = None ∨ detect_country_column normalized = None →
   etl_prices prices
     = inl (StStop prices_error (normalize_prices <$> columns prices))) ∧
  (diagnosed (etl_prices prices) →
   detect_year_column normalized = None ∨ detect_country_column normalized = None).
Proof.
  cbv zeta. unfold etl_prices, detect_year_column, detect_country_column.
  cbv zeta. rewrite !detect_truthy by done. split.
  - intros [-> | ->]; simpl; rewrite ?orb_true_r, columns_map_columns; done.
  - destruct (detect year_candidates _) as [y|]; [|by left].
    destruct (detect country_candidates _) as [c|]; [|by right].
    simpl. intros Hd. exfalso. revert Hd.
    repeat (apply bind_not_diagnosed;
            [first [apply update_not_diagnosed|apply dropna_not_diagnosed]|intros ?]).
    apply update_not_diagnosed.
Qed.

(** ** Coercion and dropna *)

Lemma to_numeric_cell_cases x :
  to_numeric_cell x = NA ∨ is_num (to_numeric_cell x) = true.
Proof.
  destruct x as [|q|t]; simpl; auto. destruct (parse_number t); simpl; auto.
Qed.

Lemma to_numeric_notna s mask :
  Forall (λ x, notna x = true) (select mask (to_numeric s)) →
  Forall (λ x, is_num x = true) (select mask (to_numeric s)).
Proof.
  unfold to_numeric. rewrite select_fmap, !list.Forall_fmap.
  intros Hall. eapply list.Forall_impl; [exact Hall|]. intros x. simpl.
  by destruct (to_numeric_cell_cases x) as [-> | ->].
Qed.

Lemma select_mask_and_r {A} (P : A → Prop) (m m' : list bool) (l : list A) :
  Forall P (select m l) → Forall P (select (mask_and m' m) l).
Proof.
  revert m m'. induction l as [|x l IH]; intros [|b m] [|b' m']; simpl;
    try by constructor.
  destruct b, b'; simpl; intros Hl; try (by apply IH).
  - inversion Hl; subst. constructor; [done|by apply IH].
  - inversion Hl; subst. by apply IH.
Qed.

Lemma dropna_mask_notna labels df label col :
  (label, col) ∈ data df → label ∈ labels →
  Forall (λ x, notna x = true) (select (dropna_mask labels df) col).
Proof.
  unfold dropna_mask. generalize (replicate (length (index df)) true).
  induction (data df) as [|[l c] cols IH]; intros base Hin Hl; simpl.
  - by apply elem_of_nil in Hin.
  - apply elem_of_cons in Hin as [[= <- <-]|Hin].
    + rewrite decide_True by done. apply select_test_l.
    + destruct (decide (l ∈ labels)); [apply select_mask_and_r|]; by apply IH.
Qed.

Lemma dropna_inr labels df df' :
  dropna labels df = inr df' → df' = loc df (dropna_mask labels df).
Proof. unfold dropna. destruct (filter _ labels); [|done]. by intros [= <-]. Qed.

Lemma getitem_elem_of df label s : getitem df label = inr s → (label, s) ∈ data df.
Proof.
  unfold getitem. destruct (filter _ (data df)) as [|[l c] [|? ?]] eqn:E; try done.
  intros [= <-].
  assert ((l, c) ∈ filter (λ c, c.1 = label) (data df)) as Hin
    by (rewrite E; by left).
  apply list_elem_of_filter in Hin as [Hl Hin]. simpl in Hl. by subst.
Qed.

Lemma filter_setitem_same label s (cols : list (string * list cell)) :
  filter (λ c, c.1 = label)
    ((λ c, if decide (c.1 = label) then (label, s) else c) <$> cols) =
  (λ _, (label, s)) <$> filter (λ c, c.1 = label) cols.
Proof.
  induction cols as [|[l c] cols IH]; [done|].
  rewrite fmap_cons, !filter_cons. simpl.
  destruct (decide (l = label)) as [->|?]; simpl.
  - rewrite decide_True by done. simpl. by rewrite IH.
  - by rewrite decide_False.
Qed.

Lemma getitem_setitem_same df label s0 s :
  getitem df label = inr s0 → getitem (setitem df label s) label = inr s.
Proof.
  intros Hget. pose proof (getitem_inr_columns _ _ _ Hget) as Hin.
  unfold getitem, setitem in *. simpl. rewrite decide_True by done.
  rewrite filter_setitem_same.
  by destruct (filter _ (data df)) as [|? [|? ?]].
Qed.

(** The columns of a frame whose labels were rewritten are the columns
    of the sheet. *)
Lemma map_columns_elem_of f df label s :
  (label, s) ∈ data (map_columns f df) → ∃ header, (header, s) ∈ data df.
Proof.
  unfold map_columns. simpl.
  intros ([header s'] & [= -> ->] & Hin)%list_elem_of_fmap. by exists header.
Qed.

Lemma select_lookup {A} (P : A → Prop) mask (l : list A) i x :
  Forall P (select mask l) → mask !! i = Some true → l !! i = Some x → P x.
Proof.
  revert l i. induction mask as [|b mask IH]; intros [|y l] [|i]; simpl; try done.
  - intros Hall [= ->] [= ->]. by inversion Hall.
  - intros Hall Hm Hl. destruct b; [inversion Hall; subst|]; by eapply IH.
Qed.

(** What the two coercions and the [dropna] of a block leave in a
    coerced column [label]. *)
Lemma coerced_column_after_dropna df labels label s df' :
  dropna labels df = inr df' → label ∈ labels →
  getitem df label = inr (to_numeric s) →
  getitem df' label = inr (select (dropna_mask labels df) (to_numeric s)) ∧
  Forall (λ x, is_num x = true) (select (dropna_mask labels df) (to_numeric s)).
Proof.
  intros ->%dropna_inr Hl Hget. split.
  - by rewrite getitem_loc, Hget.
  - apply to_numeric_notna. eapply dropna_mask_notna; [|done].
    by apply getitem_elem_of.
Qed.

(** The steps the prices and seizures blocks share after the renaming:
    coerce [Year] and the measure, drop the rows with a missing required
    cell, add the two derived columns. *)
Lemma coerce_drop_tag (p0 : DataFrame) (measure drug : string) (labels : list string)
    (f g : list cell → list cell) (df : DataFrame) :
  (p1 ← update p0 "Year" "Year" to_numeric;
   p2 ← update p1 measure measure to_numeric;
   p3 ← dropna labels p2;
   p4 ← update p3 "Drug_Tag" drug f;
   update p4 "Economic_Status" "Country" g) = inr df →
  "Year" ∈ labels → measure ∈ labels →
  measure ≠ "Year" → measure ≠ "Drug_Tag" → measure ≠ "Economic_Status" →
  ∃ raw_years raw_measure mask,
    getitem p0 "Year" = inr raw_years ∧
    getitem p0 measure = inr raw_measure ∧
    index df = select mask (index p0) ∧
    getitem df "Year" = inr (select mask (to_numeric raw_years)) ∧
    getitem df measure = inr (select mask (to_numeric raw_measure)) ∧
    Forall (λ x, is_num x = true) (select mask (to_numeric raw_years)) ∧
    Forall (λ x, is_num x = true) (select mask (to_numeric raw_measure)).
Proof.
  intros E Hy Hm Hne1 Hne2 Hne3.
  apply bind_inr in E as (p1 & (ry & Hry & ->)%update_inr & E).
  apply bind_inr in E as (p2 & (rm & Hrm & ->)%update_inr & E).
  apply bind_inr in E as (p3 & Hdrop & E).
  apply bind_inr in E as (p4 & (ds & _ & ->)%update_inr & E).
  apply update_inr in E as (cs & _ & ->).
  set (p1 := setitem p0 "Year" (to_numeric ry)) in *.
  set (p2 := setitem p1 measure (to_numeric rm)) in *.
  assert (getitem p2 "Year" = inr (to_numeric ry)) as Hy2.
  { unfold p2. rewrite getitem_setitem_ne by done.
    by eapply getitem_setitem_same. }
  assert (getitem p2 measure = inr (to_numeric rm)) as Hm2
    by (by eapply getitem_setitem_same).
  destruct (coerced_column_after_dropna _ _ _ _ _ Hdrop Hy Hy2) as [Hy3 Hyn].
  destruct (coerced_column_after_dropna _ _ _ _ _ Hdrop Hm Hm2) as [Hm3 Hmn].
  exists ry, rm, (dropna_mask labels p2).
  split; [done|]. split.
  { unfold p1 in Hrm. by rewrite getitem_setitem_ne in Hrm. }
  split.
  { apply dropna_inr in Hdrop as ->. done. }
  split; [by rewrite !getitem_setitem_ne|].
  split; [by rewrite !getitem_setitem_ne|]. done.
Qed.

Lemma rename_elem_of d f raw label s :
  (label, s) ∈ data (rename d (map_columns f raw)) → ∃ header, (header, s) ∈ data raw.
Proof.
  unfold rename. intros (header & Hin)%map_columns_elem_of.
  by apply map_columns_elem_of in Hin.
Qed.

(** The prices block keeps a selection of the rows of the sheet; in a
    kept row the coerced year and the coerced price are numbers. *)
Lemma etl_prices_rows_numeric raw df :
  etl_prices raw = inr df →
  ∃ year_header price_header raw_years raw_prices mask,
    (year_header, raw_years) ∈ data raw ∧
    (price_header, raw_prices) ∈ data raw ∧
    index df = select mask (index raw) ∧
    getitem df "Year" = inr (select mask (to_numeric raw_years)) ∧
    getitem df "Price_USD" = inr (select mask (to_numeric raw_prices)) ∧
    Forall (λ x, is_num x = true) (select mask (to_numeric raw_years)) ∧
    Forall (λ x, is_num x = true) (select mask (to_numeric raw_prices)).
Proof.
  unfold etl_prices. cbv zeta. destruct (_ || _); [done|]. intros E.
  apply coerce_drop_tag in E
    as (ry & rp & mask & Hry & Hrp & Hidx & Hy & Hp & Hyn & Hpn);
    [|set_solver..|done|done|done].
  apply getitem_elem_of, rename_elem_of in Hry as [yh Hyh].
  apply getitem_elem_of, rename_elem_of in Hrp as [ph Hph].
  by exists yh, ph, ry, rp, mask.
Qed.

(** The same for the seizures block and the seized weight. *)
Lemma etl_seizures_rows_numeric raw df :
  etl_seizures raw = inr df →
  ∃ year_header weight_header raw_years raw_weights mask,
    (year_header, raw_years) ∈ data raw ∧
    (weight_header, raw_weights) ∈ data raw ∧
    index df = select mask (index raw) ∧
    getitem df "Year" = inr (select mask (to_numeric raw_years)) ∧
    getitem df "Kilograms" = inr (select mask (to_numeric raw_weights)) ∧
    Forall (λ x, is_num x = true) (select mask (to_numeric raw_years)) ∧
    Forall (λ x, is_num x = true) (select mask (to_numeric raw_weights)).
Proof.
  unfold etl_seizures. cbv zeta. intros E.
  apply coerce_drop_tag in E
    as (ry & rp & mask & Hry & Hrp & Hidx & Hy & Hp & Hyn & Hpn);
    [|set_solver..|done|done|done].
  apply getitem_elem_of, rename_elem_of in Hry as [yh Hyh].
  apply getitem_elem_of, rename_elem_of in Hrp as [ph Hph].
  by exists yh, ph, ry, rp, mask.
Qed.

(** ** The two claims the crimes and seizures blocks do not meet *)

Import Samples.

(** C1 (what the script does).  The prices block halts with the
    diagnostic, listing every normalized column label, exactly when the
    year or the country detector finds nothing.  The seizures and crimes
    blocks have no such check and never end in the diagnostic: on the
    sample sheets without a year or a country column they go on to the
    renaming and the coercions and die of the [KeyError] of the first
    access to the missing label. *)
Theorem missing_column_diagnostic_only_in_prices :
  (∀ prices,
     (detect_year_column (map_columns normalize_prices prices) = None ∨
      detect_country_column (map_columns normalize_prices prices) = None →
      etl_prices prices
        = inl (StStop prices_error (normalize_prices <$> columns prices))) ∧
     (diagnosed (etl_prices prices) →
      detect_year_column (map_columns normalize_prices prices) = None ∨
      detect_country_column (map_columns normalize_prices prices) = None)) ∧
  (∀ seizures, ¬ diagnosed (etl_seizures seizures)) ∧
  (∀ crimes, ¬ diagnosed (etl_crimes crimes)) ∧
  detect_year_column (map_columns normalize_seizures seizures_without_year) = None ∧
  etl_seizures seizures_without_year = inl (KeyError ["Year"]) ∧
  detect_country_column (map_columns normalize_seizures seizures_without_country) = None ∧
  etl_seizures seizures_without_country = inl (KeyError ["Country"]) ∧
  detect_year_column (map_columns normalize_crimes crimes_without_year) = None ∧
  etl_crimes crimes_without_year = inl (KeyError ["Year"]) ∧
  detect_country_column (map_columns normalize_crimes crimes_without_country) = None ∧
  etl_crimes crimes_without_country = inl (KeyError ["Country"]).
Proof.
  split; [intros prices; apply (etl_prices_diagnosed prices)|].
  split; [apply etl_seizures_not_diagnosed|].
  split; [apply etl_crimes_not_diagnosed|].
  repeat split; by vm_compute.
Qed.

(** C2 (what the script does).  The prices and seizures blocks keep a
    selection of the rows of their sheet, and in every kept row the
    coerced year and the coerced measure (Price_USD, Kilograms) are
    numbers.  The crimes block coerces the year only: on the sample
    sheet all three rows are kept, with a Calculated_total that is a
    number, a text and a missing cell. *)
Theorem measure_is_numeric_except_in_crimes :
  (∀ raw df,
     etl_prices raw = inr df →
     ∃ year_header price_header raw_years raw_prices mask,
       (year_header, raw_years) ∈ data raw ∧
       (price_header, raw_prices) ∈ data raw ∧
       index df = select mask (index raw) ∧
       getitem df "Year" = inr (select mask (to_numeric raw_years)) ∧
       getitem df "Price_USD" = inr (select mask (to_numeric raw_prices)) ∧
       Forall (λ x, is_num x = true) (select mask (to_numeric raw_years)) ∧
       Forall (λ x, is_num x = true) (select mask (to_numeric raw_prices))) ∧
  (∀ raw df,
     etl_seizures raw = inr df →
     ∃ year_header weight_header raw_years raw_weights mask,
       (year_header, raw_years) ∈ data raw ∧
       (weight_header, raw_weights) ∈ data raw ∧
       index df = select mask (index raw) ∧
       getitem df "Year" = inr (select mask (to_numeric raw_years)) ∧
       getitem df "Kilograms" = inr (select mask (to_numeric raw_weights)) ∧
       Forall (λ x, is_num x = true) (select mask (to_numeric raw_years)) ∧
       Forall (λ x, is_num x = true) (select mask (to_numeric raw_weights))) ∧
  (∃ df,
     etl_crimes crimes_with_bad_totals = inr df ∧
     index df = [0; 1; 2]%nat ∧
     getitem df "Year" = inr [n 2020; n 2020; n 2020] ∧
     getitem df "Calculated_total" = inr [n 100; Str "unknown"; NA]).
Proof.
  split; [apply etl_prices_rows_numeric|].
  split; [apply etl_seizures_rows_numeric|].
  eexists. split; [by vm_compute|]. by vm_compute.
Qed.

End Verification.

(** * The script on the sample sheets *)

Import Py Pd App Samples.
#[local] Existing Instance Decimal.syntax.

Local Ltac evaluate := vm_compute; reflexivity.
Local Ltac decide_it := apply (bool_decide_unpack _); vm_compute; reflexivity.

(** The example row of the specification: Germany, "Cocaine (street)",
    80 USD. *)
Example germany_cocaine_row :
  tag_drug (Str "Cocaine (street)") = Some "Cocaine" ∧
  classify_country (Str "Germany") = "Desenvolvido" ∧
  to_numeric_cell (n 80) = n 80.
Proof. repeat split; evaluate. Qed.

(** C5, as the specification states it, fails on each sheet: prices keeps
    the colon, seizures keeps the slash, crimes deletes the colon, where the
    specified normalization writes an underscore. *)
Lemma headers_not_normalized_as_specified :
  normalize_prices "Price: USD" = "Price:_USD" ∧
  spec_normalize "Price: USD" = "Price__USD" ∧
  normalize_seizures "Country/Territory" = "Country/Territory" ∧
  spec_normalize "Country/Territory" = "Country_Territory" ∧
  normalize_crimes "Year: reference" = "Year_reference" ∧
  spec_normalize "Year: reference" = "Year__reference".
Proof. repeat split; evaluate. Qed.

(** The header theorem at a header with a slash and no colon. *)
Lemma header_normalization_on_country_territory :
  has_char ":" (strip " Country / Territory ") = false ∧
  normalize_prices " Country / Territory " = spec_normalize " Country / Territory ".
Proof.
  split; [evaluate|].
  apply (header_normalization_per_sheet " Country / Territory "). evaluate.
Defined.

(** C7, as the specification states it, fails on a sheet with a negative
    price: at a tax rate of 5 the revenue of the one country is -280, at 50
    it is -2800, which is neither greater nor zero. *)
Lemma negative_price_revenue_falls_with_tax :
  ∃ d1 d2,
    run negative_workbook (set_tax_rate cocaine 5) = inr d1 ∧
    run negative_workbook (set_tax_rate cocaine 50) = inr d2 ∧
    sim_Country <$> out_country_sim d1 = [Str "Peru"] ∧
    sim_Country <$> out_country_sim d2 = [Str "Peru"] ∧
    Tax_Revenue <$> out_country_sim d1 = [Fin (Qc_of_Z (-280))] ∧
    Tax_Revenue <$> out_country_sim d2 = [Fin (Qc_of_Z (-2800))] ∧
    num_lt (Fin (Qc_of_Z (-2800))) (Fin (Qc_of_Z (-280))) ∧
    Fin (Qc_of_Z (-280)) ≠ Fin (Q2Qc 0).
Proof.
  eexists _, _. split; [evaluate|]. split; [evaluate|].
  split; [evaluate|]. split; [evaluate|].
  split; [decide_it|]. split; [decide_it|]. split; [evaluate|]. decide_it.
Qed.

(** The monotonicity theorem on the sample workbook, tax rates 5 and 50. *)
Lemma tax_revenue_monotone_on_workbook :
  ∃ d1 d2,
    run workbook (set_tax_rate defaults 5) = inr d1 ∧
    run workbook (set_tax_rate defaults 50) = inr d2 ∧
    Forall2 (λ r1 r2,
      sim_Country r1 = sim_Country r2 ∧
      Avg_Price r1 = Avg_Price r2 ∧
      Transactions r1 = Transactions r2 ∧
      ∀ a, Avg_Price r1 = Fin a →
        ((Q2Qc 0 <= a)%Qc →
           num_lt (Tax_Revenue r1) (Tax_Revenue r2) ∨
           (Tax_Revenue r1 = Fin (Q2Qc 0) ∧ Tax_Revenue r2 = Fin (Q2Qc 0))) ∧
        ((a < Q2Qc 0)%Qc →
           num_lt (Tax_Revenue r2) (Tax_Revenue r1) ∨
           (Tax_Revenue r1 = Fin (Q2Qc 0) ∧ Tax_Revenue r2 = Fin (Q2Qc 0))))
      (out_country_sim d1) (out_country_sim d2).
Proof.
  eexists _, _. split; [evaluate|]. split; [evaluate|].
  apply (tax_revenue_monotone_when_price_nonnegative workbook defaults 5 50);
    [evaluate|evaluate|done..].
Defined.

(** The ranking theorem on the sample seizures and crimes. *)
Lemma traffic_score_on_samples :
  ∃ rank,
    text_column seizures_sheet "Country" ∧
    text_column crimes_sheet "Country" ∧
    traffic_rank seizures_sheet crimes_sheet = inr rank ∧
    Forall (λ r, in_int64 (Kilograms r) ∧ in_int64 (Calculated_total r)) rank ∧
    Country <$> rank = [Str "Brazil"; Str "Germany"] ∧
    ∃ skeys svals ckeys cvals,
      getitem seizures_sheet "Country" = inr skeys ∧
      getitem seizures_sheet "Kilograms" = inr svals ∧
      getitem crimes_sheet "Country" = inr ckeys ∧
      getitem crimes_sheet "Calculated_total" = inr cvals ∧
      NoDup (Country <$> rank) ∧
      (∀ c, c ∈ Country <$> rank ↔ c ≠ NA ∧ c ∈ skeys ∧ c ∈ ckeys) ∧
      Forall (λ r,
        group_sum "Kilograms" (group_of (Country r) skeys svals)
          = inr (Num (Kilograms r)) ∧
        group_sum "Calculated_total" (group_of (Country r) ckeys cvals)
          = inr (Num (Calculated_total r)) ∧
        ∃ kmax cmax,
          series_max (Kilograms <$> rank) = Some kmax ∧
          series_max (Calculated_total <$> rank) = Some cmax ∧
          kmax ∈ Kilograms <$> rank ∧ cmax ∈ Calculated_total <$> rank ∧
          Forall (λ r', (Kilograms r' <= kmax)%Qc ∧ (Calculated_total r' <= cmax)%Qc) rank ∧
          (kmax ≠ Q2Qc 0 → cmax ≠ Q2Qc 0 →
           Traffic_Score r =
             Fin (Kilograms r / kmax + Calculated_total r / cmax)%Qc)) rank.
Proof.
  assert (text_column seizures_sheet "Country") as Hseizures.
  { eexists. split; [evaluate|]. by repeat constructor. }
  assert (text_column crimes_sheet "Country") as Hcrimes.
  { eexists. split; [evaluate|]. by repeat constructor. }
  eexists. split; [exact Hseizures|]. split; [exact Hcrimes|].
  split; [evaluate|].
  match goal with |- ?R ∧ _ => assert R as Hrange end.
  { repeat constructor; decide_it. }
  split; [exact Hrange|]. split; [evaluate|].
  apply (traffic_score_by_maximum seizures_sheet crimes_sheet);
    [exact Hseizures|exact Hcrimes|evaluate|exact Hrange].
Defined.

(** A text among the totals stops the ranking only when it meets a number
    in its group, or when its country is in both tables.  The texts of
    Atlantis, a country without seizures, are concatenated by the group sum
    and leave with the merge. *)
Example text_totals_in_traffic_rank :
  groupby_sum crimes_with_text_elsewhere "Country" "Calculated_total"
    = inr [(Str "Atlantis", Str "manyfew"); (Str "Brazil", n 50); (Str "Germany", n 100)] ∧
  (λ rank, Country <$> rank) <$> traffic_rank seizures_sheet crimes_with_text_elsewhere
    = inr [Str "Brazil"; Str "Germany"] ∧
  traffic_rank seizures_sheet crimes_with_text_joined = inl (TypeError "Calculated_total") ∧
  traffic_rank seizures_sheet crimes_with_mixed_group = inl (TypeError "Calculated_total").
Proof. repeat split; evaluate. Qed.

(** The ranking is sorted with the larger scores first, rows of equal score
    in the order they had, and a missing score last. *)
Example top_keeps_equal_scores_in_order :
  top snd 3 [("Peru", NaN); ("Germany", Fin (Qc_of_Z 1)); ("Brazil", Fin (Qc_of_Z 2));
             ("Chile", Fin (Qc_of_Z 2)); ("France", PInf)]
    = [("France", PInf); ("Brazil", Fin (Qc_of_Z 2)); ("Chile", Fin (Qc_of_Z 2))].
Proof. evaluate. Qed.

(** The filtered-view theorem on the sample workbook with one drug and one
    country selected. *)
Lemma df_price_rows_are_tagged_on_workbook :
  ∃ d,
    run workbook heroin_in_brazil = inr d ∧
    valid_widgets (out_prices d) heroin_in_brazil ∧
    index (out_prices d) = [0; 2; 3; 4]%nat ∧
    index (out_df_price d) = [3; 4]%nat ∧
    ∃ tags drugs,
      getitem (out_df_price d) "Drug_Tag" = inr tags ∧
      getitem (out_df_price d) "Drug" = inr drugs ∧
      tags = (cell_of ∘ tag_drug) <$> drugs ∧
      Forall (λ t, t ∈ drug_tags heroin_in_brazil ∧ t ≠ NA) tags ∧
      Forall (λ x, tag_drug x ≠ None) drugs.
Proof.
  eexists. split; [evaluate|].
  match goal with |- ?V ∧ _ => assert V as Hvalid end.
  { eexists _, _. split; [evaluate|]. split; [evaluate|].
    split; [decide_it|]. split; [decide_it|]. split; [decide_it|].
    simpl. lia. }
  split; [exact Hvalid|]. split; [evaluate|]. split; [evaluate|].
  apply (df_price_rows_are_tagged workbook heroin_in_brazil); [evaluate|exact Hvalid].
Defined.

(** The independence theorem on the sample workbook under two different
    selections. *)
Lemma traffic_views_on_workbook :
  ∃ d1 d2,
    run workbook defaults = inr d1 ∧
    run workbook heroin_in_brazil = inr d2 ∧
    index (out_df_price d1) ≠ index (out_df_price d2) ∧
    out_traffic_rank d1 = out_traffic_rank d2 ∧
    out_top_traffic d1 = out_top_traffic d2 ∧
    out_map d1 = out_map d2.
Proof.
  eexists _, _. split; [evaluate|]. split; [evaluate|]. split; [decide_it|].
  apply (traffic_views_ignore_widgets workbook defaults heroin_in_brazil); evaluate.
Defined.

(** The simulation theorem on the sample workbook. *)
Lemma revenue_simulation_on_workbook :
  ∃ d,
    run workbook defaults = inr d ∧
    sim_Country <$> out_country_sim d = [Str "Brazil"; Str "Germany"] ∧
    Transactions <$> out_country_sim d = [2; 1]%nat ∧
    Estimated_Volume <$> out_country_sim d = [1600; 800]%Z ∧
    ∃ keys vals,
      getitem (out_df_price d) "Country" = inr keys ∧
      getitem (out_df_price d) "Price_USD" = inr vals ∧
      (∀ c, c ∈ keys → c ≠ NA →
            ∃ r, r ∈ out_country_sim d ∧ sim_Country r = c) ∧
      Forall (λ r,
        sim_Country r ∈ keys ∧
        agg_mean "Price_USD" (group_of (sim_Country r) keys vals)
          = inr (Avg_Price r) ∧
        Transactions r = agg_count (group_of (sim_Country r) keys vals) ∧
        Estimated_Volume r = (Z.of_nat (Transactions r) * 800)%Z ∧
        Legal_Price r =
          fmul (Avg_Price r)
               (Fin (1 - Qc_of_Z (price_reduction defaults) / Qc_of_Z 100)%Qc) ∧
        Tax_Revenue r =
          fmul (fmul (Legal_Price r)
                     (Fin (Qc_of_Z (tax_rate defaults) / Qc_of_Z 100)%Qc))
               (Fin (Qc_of_Z (Estimated_Volume r))) ∧
        ∀ a, Avg_Price r = Fin a →
          Legal_Price r
            = Fin (a * (1 - Qc_of_Z (price_reduction defaults) / Qc_of_Z 100))%Qc ∧
          Tax_Revenue r
            = Fin (a * (1 - Qc_of_Z (price_reduction defaults) / Qc_of_Z 100)
                     * (Qc_of_Z (tax_rate defaults) / Qc_of_Z 100)
                     * Qc_of_Z (Estimated_Volume r))%Qc)
        (out_country_sim d).
Proof.
  eexists. split; [evaluate|]. split; [evaluate|]. split; [evaluate|].
  split; [evaluate|].
  apply (proj1 revenue_simulation_formulas workbook defaults). evaluate.
Defined.
